(** * Sortable row tables of the prediction client

    A shallow embedding of the client-side logic of the three page views
    ([app/page.tsx], [app/history/page.tsx] and a second revision of the
    predictions page): the comparator handed to [Array.prototype.sort], the
    sort-state toggle, the number formatter and the fetch handler.

    JavaScript values are embedded as follows.
    - A number is [NaN], an infinity, or a finite value carried as the exact
      rational it denotes (every finite double is a rational).  [<] and [>]
      on doubles are exact; the difference of two finite doubles has the sign
      of the exact difference, and the sign is all that [sort] reads from
      the comparator's result.
    - A string is a [string], one [ascii] per code unit, ordered code unit by
      code unit.
    - A row is an object decoded from JSON: a finite map from property names
      to primitive values; reading an absent property yields [undefined]. *)

From Stdlib Require Import ZArith QArith Qabs Lia List Permutation Sorted.
From Stdlib Require Import Strings.String Strings.Ascii DecimalString.
From Stdlib Require Import Structures.OrdersEx.
From stdpp Require Import gmap strings list.

Local Open Scope string_scope.

(** ** The fragment of JavaScript the pages use *)

Module JS.

Inductive num : Type :=
| NaN
| NegInf
| PosInf
| Fin (q : Q).

Inductive value : Type :=
| VUndefined
| VNull
| VBool (b : bool)
| VNum (n : num)
| VStr (s : string).

(** Built-ins of the host that are taken as given: the conversion of a
    string to a number, and the shortest decimal rendering of a finite
    number (used by [toFixed] from 10^21 upwards). *)
Class Host : Type := {
  StringToNumber : string -> num;
  NumberToString : Q -> string
}.

Definition is_nan (n : num) : bool :=
  match n with NaN => true | _ => false end.

(** [x < y] on numbers; any comparison with [NaN] is false. *)
Definition num_lt (x y : num) : bool :=
  match x, y with
  | NaN, _ | _, NaN => false
  | NegInf, NegInf => false
  | NegInf, _ => true
  | _, NegInf => false
  | PosInf, _ => false
  | _, PosInf => true
  | Fin p, Fin q => match Qcompare p q with Lt => true | _ => false end
  end.

(** [x - y] on numbers. *)
Definition num_sub (x y : num) : num :=
  match x, y with
  | NaN, _ | _, NaN => NaN
  | PosInf, PosInf | NegInf, NegInf => NaN
  | PosInf, _ => PosInf
  | NegInf, _ => NegInf
  | Fin _, PosInf => NegInf
  | Fin _, NegInf => PosInf
  | Fin p, Fin q => Fin (p - q)
  end.

Definition str_lt (s t : string) : bool :=
  match String.compare s t with Lt => true | _ => false end.

Section WithHost.
Context {host : Host}.

Definition ToNumber (v : value) : num :=
  match v with
  | VUndefined => NaN
  | VNull => Fin 0
  | VBool true => Fin 1
  | VBool false => Fin 0
  | VNum n => n
  | VStr s => StringToNumber s
  end.

(** [a < b]: two strings are compared as strings, anything else as
    numbers.  [a > b] is [js_lt b a]. *)
Definition js_lt (a b : value) : bool :=
  match a, b with
  | VStr s, VStr t => str_lt s t
  | _, _ => num_lt (ToNumber a) (ToNumber b)
  end.

(** [a - b]. *)
Definition js_sub (a b : value) : num :=
  num_sub (ToNumber a) (ToNumber b).

End WithHost.

(** [v ?? d]. *)
Definition nullish (v d : value) : value :=
  match v with
  | VUndefined | VNull => d
  | _ => v
  end.

Definition is_missing (v : value) : bool :=
  match v with
  | VUndefined | VNull => true
  | _ => false
  end.

(** Objects and property reads [o[k]]. *)
Definition get (o : gmap string value) (k : string) : value :=
  default VUndefined (o !! k).

(** *** [Array.prototype.sort]

    The comparator's result [v] is read through its sign, [NaN] counting as
    [+0].  The standard leaves the algorithm to the engine and fixes the
    result for a consistent comparator: the sorted, stable permutation.
    The algorithm below is the stable insertion sort; [Array_sort_unique]
    shows that no sorted, stable permutation differs from its result. *)
Section Sort.
Context {A : Type} (comparefn : A -> A -> num).

Definition SortCompare (x y : A) : num :=
  let v := comparefn x y in
  if is_nan v then Fin 0 else v.

(** [x] has to go after [y]. *)
Definition after (x y : A) : bool := num_lt (Fin 0) (SortCompare x y).

(** Neither has to go after the other. *)
Definition tied (x y : A) : bool := negb (after x y) && negb (after y x).

Fixpoint insert (x : A) (l : list A) : list A :=
  match l with
  | [] => [x]
  | y :: l' => if after x y then y :: insert x l' else x :: l
  end.

Fixpoint Array_sort (l : list A) : list A :=
  match l with
  | [] => []
  | x :: l' => insert x (Array_sort l')
  end.

End Sort.

(** *** Exceptions

    A thrown value is a primitive or an object; [Error message] is the
    object built by [new Error(message)].  A statement completes normally
    or throws. *)
Inductive thrown : Type :=
| ThrowPrim (v : value)
| ThrowObj (o : gmap string value).

Definition Error (message : string) : thrown :=
  ThrowObj {[ "message" := VStr message ]}.

(** [e?.message]: no primitive has a [message] property. *)
Definition opt_message (e : thrown) : value :=
  match e with
  | ThrowPrim _ => VUndefined
  | ThrowObj o => get o "message"
  end.

Inductive completion (A : Type) : Type :=
| Normal (a : A)
| Throw (e : thrown).
Arguments Normal {A} a.
Arguments Throw {A} e.

(** Statements over a state [S]. *)
Definition Act (S A : Type) : Type := S -> completion A * S.

Definition ret {S A} (a : A) : Act S A := fun s => (Normal a, s).

Definition throw {S A} (e : thrown) : Act S A := fun s => (Throw e, s).

Definition bind {S A B} (m : Act S A) (k : A -> Act S B) : Act S B :=
  fun s =>
    match m s with
    | (Normal a, s') => k a s'
    | (Throw e, s') => (Throw e, s')
    end.

(** [try { body } catch (e) { handler e }] *)
Definition try_catch {S A} (body : Act S A) (handler : thrown -> Act S A) : Act S A :=
  fun s =>
    match body s with
    | (Normal a, s') => (Normal a, s')
    | (Throw e, s') => handler e s'
    end.

(** [try { body } finally { fin }]: the completion of [body] is kept unless
    [fin] itself throws. *)
Definition try_finally {S A} (body : Act S A) (fin : Act S unit) : Act S A :=
  fun s =>
    match body s with
    | (c, s') =>
        match fin s' with
        | (Normal _, s'') => (c, s'')
        | (Throw e, s'') => (Throw e, s'')
        end
    end.

Definition modify {S} (f : S -> S) : Act S unit := fun s => (Normal tt, f s).

(** [await p], for a promise [p] that settles to [c]. *)
Definition await {S A} (c : completion A) : Act S A := fun s => (c, s).

Declare Scope act_scope.
Delimit Scope act_scope with act.
Notation "x ← m ; k" := (bind m (fun x => k))
  (at level 20, m at level 100, k at level 200, only parsing) : act_scope.
Notation "m ;; k" := (bind m (fun _ => k))
  (at level 100, k at level 200, only parsing, right associativity) : act_scope.

(** *** The store

    Arrays and objects live in a store and are handled through references;
    an array holds references to its elements.  Reading through a dangling
    reference is stuck ([None]). *)
Definition loc : Type := nat.

Record heap : Type := Heap {
  arrays : gmap loc (list loc);
  objects : gmap loc (gmap string value)
}.

Definition St (A : Type) : Type := heap -> option (A * heap).

Definition st_ret {A} (a : A) : St A := fun h => Some (a, h).

Definition st_bind {A B} (m : St A) (k : A -> St B) : St B :=
  fun h =>
    match m h with
    | Some (a, h') => k a h'
    | None => None
    end.

Declare Scope st_scope.
Delimit Scope st_scope with st.
Notation "x ← m ; k" := (st_bind m (fun x => k))
  (at level 20, m at level 100, k at level 200, only parsing) : st_scope.
Notation "m ;; k" := (st_bind m (fun _ => k))
  (at level 100, k at level 200, only parsing, right associativity) : st_scope.

(** [o[k]] through a reference. *)
Definition get_prop (o : loc) (k : string) : St value :=
  fun h =>
    match objects h !! o with
    | Some r => Some (get r k, h)
    | None => None
    end.

Definition read_array (a : loc) : St (list loc) :=
  fun h =>
    match arrays h !! a with
    | Some l => Some (l, h)
    | None => None
    end.

Definition write_array (a : loc) (l : list loc) : St unit :=
  fun h =>
    match arrays h !! a with
    | Some _ => Some (tt, Heap (<[a := l]> (arrays h)) (objects h))
    | None => None
    end.

Definition alloc_array (l : list loc) : St loc :=
  fun h =>
    let a := fresh (dom (arrays h)) in
    Some (a, Heap (<[a := l]> (arrays h)) (objects h)).

(** [[...src]]: a new array holding the same references. *)
Definition spread (src : loc) : St loc :=
  (l ← read_array src ; alloc_array l)%st.

(** [a.sort(comparefn)] in place, the comparator running in the store. *)
Section SortInPlace.
Context (comparefn : loc -> loc -> St num).

(** The comparator's result is positive, [NaN] counting as [+0]. *)
Definition positive_result (v : num) : bool :=
  num_lt (Fin 0) (if is_nan v then Fin 0 else v).

Fixpoint insert_st (x : loc) (l : list loc) : St (list loc) :=
  match l with
  | [] => st_ret [x]
  | y :: l' =>
      (v ← comparefn x y ;
       if positive_result v
       then (r ← insert_st x l' ; st_ret (y :: r))
       else st_ret (x :: l))%st
  end.

Fixpoint sort_st (l : list loc) : St (list loc) :=
  match l with
  | [] => st_ret []
  | x :: l' => (s ← sort_st l' ; insert_st x s)%st
  end.

Definition Array_sort_st (a : loc) : St unit :=
  (l ← read_array a ; s ← sort_st l ; write_array a s)%st.

End SortInPlace.

(** *** [Number.prototype.toFixed] *)
Inductive error : Type := RangeError | TypeError.

Definition digits (n : Z) : string :=
  NilZero.string_of_uint (N.to_uint (Z.to_N n)).

Fixpoint zeros (k : nat) : string :=
  match k with
  | O => ""
  | S k' => String "0" (zeros k')
  end.

(** The integer [n] for which [n / 10^f - p/d] is closest to zero, the
    larger one when there are two ([p >= 0], [d > 0]). *)
Definition nearest (p d f : Z) : Z := (2 * p * 10 ^ f + d) / (2 * d).

(** The digits [m] of [n] with a point before the last [f] of them, after
    padding with zeros on the left up to [f + 1] digits. *)
Definition place_point (m : string) (f : nat) : string :=
  let m := if (String.length m <=? f)%nat
           then zeros (f + 1 - String.length m) ++ m else m in
  let k := String.length m in
  substring 0 (k - f) m ++ "." ++ substring (k - f) f m.

(** [x.toFixed(f)] *)
Definition toFixed {host : Host} (x : num) (f : Z) : string + error :=
  if ((f <? 0) || (100 <? f))%Z then inr RangeError
  else
    match x with
    | NaN => inl "NaN"
    | PosInf => inl "Infinity"
    | NegInf => inl "-Infinity"
    | Fin q =>
        let s := if (Qnum q <? 0)%Z then "-" else "" in
        let p := Z.abs (Qnum q) in
        let d := Zpos (Qden q) in
        if (10 ^ 21 * d <=? p)%Z then inl (s ++ NumberToString (p # Qden q))
        else
          let m := digits (nearest p d f) in
          let m := if (f =? 0)%Z then m else place_point m (Z.to_nat f) in
          inl (s ++ m)
    end.

End JS.

Import JS.

Abbreviation row := (gmap string value).

Inductive dir : Type := asc | desc.

Definition flip_dir (d : dir) : dir :=
  match d with asc => desc | desc => asc end.

Definition is_number (v : value) : bool :=
  match v with VNum n => negb (is_nan n) | _ => false end.

Definition is_string (v : value) : bool :=
  match v with VStr _ => true | _ => false end.

(** *** Conditions, text and table elements *)

(** The truth value a condition ([&&], [!], [?:]) takes from a value. *)
Definition truthy (v : value) : bool :=
  match v with
  | VUndefined | VNull => false
  | VBool b => b
  | VNum NaN => false
  | VNum (Fin q) => negb (Qeq_bool q 0)
  | VNum _ => true
  | VStr s => negb (String.eqb s "")
  end.

(** The string a template literal or a text child makes of a value. *)
Definition ToString {host : Host} (v : value) : string :=
  match v with
  | VUndefined => "undefined"
  | VNull => "null"
  | VBool true => "true"
  | VBool false => "false"
  | VNum NaN => "NaN"
  | VNum PosInf => "Infinity"
  | VNum NegInf => "-Infinity"
  | VNum (Fin q) => NumberToString q
  | VStr s => s
  end.

(** What a table body holds: a message row ([RowMessage], or the bare
    [tr] of the other revisions, which has no error styling), the [tr] made
    from a row of data, or a text. *)
Inductive element : Type :=
| Message (text : string) (isError : bool)
| DataRow (r : row)
| Text (s : string).

(** What shows of a value placed among the children: nothing of [null],
    [undefined], a boolean or the empty string, the text of anything else. *)
Definition child {host : Host} (v : value) : list element :=
  match v with
  | VUndefined | VNull | VBool _ => []
  | VStr "" => []
  | _ => [Text (ToString v)]
  end.

(** A column header as [Th] makes it: its label, the key its click toggles
    (none when [onClick] is absent), its tooltip and its sort arrow. *)
Record th : Type := {
  label : string;
  click : option string;
  title : option string;
  arrow : option string
}.

(** [Th({label, onClick, active, dir})] *)
Definition Th (label : string) (onClick : option string) (active : option bool)
    (d : option dir) : th :=
  {| label := label;
     click := onClick;
     title := match onClick with Some _ => Some "Sort" | None => None end;
     arrow := match active with
              | Some true => Some (match d with Some asc => "▲" | _ => "▼" end)
              | _ => None
              end |}.

(** ** The predictions page, [app/page.tsx] *)

Module Predictions.

(** [type GameView]: what a row decoded from the response is declared to
    be.  JSON has no literal for [NaN], so a decoded number is never
    [NaN]. *)
Definition GameView (r : row) : bool :=
  (is_string (get r "game_id") || is_number (get r "game_id"))
  && is_number (get r "week")
  && is_string (get r "away_team")
  && is_string (get r "home_team")
  && (is_missing (get r "home_off_epa") || is_number (get r "home_off_epa"))
  && (is_missing (get r "away_def_epa_allowed") || is_number (get r "away_def_epa_allowed"))
  && (is_missing (get r "home_off_vs_away_def") || is_number (get r "home_off_vs_away_def"))
  && (is_missing (get r "away_off_epa") || is_number (get r "away_off_epa"))
  && (is_missing (get r "home_def_epa_allowed") || is_number (get r "home_def_epa_allowed"))
  && (is_missing (get r "away_off_vs_home_def") || is_number (get r "away_off_vs_home_def"))
  && (is_missing (get r "net_epa_per_play") || is_number (get r "net_epa_per_play"))
  && (is_missing (get r "K_pair") || is_number (get r "K_pair"))
  && is_number (get r "pred_margin")
  && is_number (get r "home_win_prob")
  && is_string (get r "pick")
  && is_number (get r "pick_prob").

(** The columns whose header calls [toggleSort]. *)
Definition sortable : list string :=
  ["pred_margin"; "home_win_prob"; "pick_prob"; "net_epa_per_play"; "K_pair"].

(** [fmtNum(x, d = 2)] *)
Definition fmtNum {host : Host} (x : value) (d : option Z) : string + error :=
  let d := default 2%Z d in
  match x with
  | VNull | VUndefined => inl "—"
  | VNum n => toFixed n d
  | VBool _ | VStr _ => inr TypeError
  end.

(** The component state held by [useState]. *)
Record state : Type := State {
  season : Z;
  week : Z;
  rows : list row;
  loading : bool;
  err : value;
  sortKey : string;
  sortDir : dir
}.

Definition initial : state :=
  State 2025 8 [] false VNull "pick_prob" desc.

Definition setRows (x : list row) (s : state) : state :=
  State (season s) (week s) x (loading s) (err s) (sortKey s) (sortDir s).
Definition setLoading (x : bool) (s : state) : state :=
  State (season s) (week s) (rows s) x (err s) (sortKey s) (sortDir s).
Definition setErr (x : value) (s : state) : state :=
  State (season s) (week s) (rows s) (loading s) x (sortKey s) (sortDir s).
Definition setSortKey (x : string) (s : state) : state :=
  State (season s) (week s) (rows s) (loading s) (err s) x (sortDir s).
Definition setSortDir (f : dir -> dir) (s : state) : state :=
  State (season s) (week s) (rows s) (loading s) (err s) (sortKey s) (f (sortDir s)).

(** What [fetch] settles to: a rejection, or a response with its status
    and the outcome of decoding its body. *)
Record Response : Type := {
  status : N;
  json : completion (list row)
}.

Definition ok (res : Response) : bool :=
  ((200 <=? status res) && (status res <=? 299))%N.

Definition status_text (n : N) : string :=
  NilZero.string_of_uint (N.to_uint n).

Local Open Scope act_scope.

Definition fetchData (settled : completion Response) : Act state unit :=
  modify (setLoading true) ;;
  modify (setErr VNull) ;;
  try_finally
    (try_catch
       (res ← await settled ;
        (if negb (ok res) then throw (Error ("HTTP " ++ status_text (status res)))
         else ret tt) ;;
        data ← await (json res) ;
        modify (setRows data))
       (fun e => modify (setErr (nullish (opt_message e) (VStr "Failed to load")))))
    (modify (setLoading false)).

Local Close Scope act_scope.

Definition toggleSort (key : string) (s : state) : state :=
  if String.eqb (sortKey s) key then setSortDir flip_dir s
  else setSortDir (fun _ => desc) (setSortKey key s).

Section WithHost.
Context {host : Host}.

(** The arrow function passed to [copy.sort], on row values. *)
Definition compareFn (sortKey : string) (sortDir : dir) (a b : row) : num :=
  let av := nullish (get a sortKey) (VNum NegInf) in
  let bv := nullish (get b sortKey) (VNum NegInf) in
  if js_lt av bv then (match sortDir with asc => Fin (-1) | desc => Fin 1 end)
  else if js_lt bv av then (match sortDir with asc => Fin 1 | desc => Fin (-1) end)
  else js_sub (nullish (get b "pick_prob") (VNum (Fin 0)))
              (nullish (get a "pick_prob") (VNum (Fin 0))).

(** [sorted], as a function of the rows it reads. *)
Definition sorted (rows : list row) (sortKey : string) (sortDir : dir) : list row :=
  let copy := rows in
  Array_sort (compareFn sortKey sortDir) copy.

(** The rows on display in a state. *)
Definition view (s : state) : list row := sorted (rows s) (sortKey s) (sortDir s).

(** The same two definitions in the store, where [rows] is a reference to
    an array of references. *)
Definition compareFn_st (sortKey : string) (sortDir : dir) (a b : loc) : St num :=
  (x ← get_prop a sortKey ;
   y ← get_prop b sortKey ;
   let av := nullish x (VNum NegInf) in
   let bv := nullish y (VNum NegInf) in
   if js_lt av bv then st_ret (match sortDir with asc => Fin (-1) | desc => Fin 1 end)
   else if js_lt bv av then st_ret (match sortDir with asc => Fin 1 | desc => Fin (-1) end)
   else
     pb ← get_prop b "pick_prob" ;
     pa ← get_prop a "pick_prob" ;
     st_ret (js_sub (nullish pb (VNum (Fin 0))) (nullish pa (VNum (Fin 0)))))%st.

Definition sorted_st (rows : loc) (sortKey : string) (sortDir : dir) : St loc :=
  (copy ← spread rows ;
   Array_sort_st (compareFn_st sortKey sortDir) copy ;;
   st_ret copy)%st.

End WithHost.

(** [fetchData] in two steps: what runs before the request is awaited,
    and what runs once it has settled. *)
Definition fetchData_begin (s : state) : state :=
  setErr VNull (setLoading true s).

Local Open Scope act_scope.

Definition fetchData_resume (settled : completion Response) : Act state unit :=
  try_finally
    (try_catch
       (res ← await settled ;
        (if negb (ok res) then throw (Error ("HTTP " ++ status_text (status res)))
         else ret tt) ;;
        data ← await (json res) ;
        modify (setRows data))
       (fun e => modify (setErr (nullish (opt_message e) (VStr "Failed to load")))))
    (modify (setLoading false)).

Local Close Scope act_scope.

(** [apiBase] *)
Definition apiBase (NEXT_PUBLIC_API_URL : value) : value :=
  nullish NEXT_PUBLIC_API_URL (VStr "http://127.0.0.1:8000").

(** The header row. *)
Definition headers (s : state) : list th :=
  [ Th "Matchup" None None None;
    Th "Pred Margin" (Some "pred_margin")
       (Some (String.eqb (sortKey s) "pred_margin")) (Some (sortDir s));
    Th "Home Win %" (Some "home_win_prob")
       (Some (String.eqb (sortKey s) "home_win_prob")) (Some (sortDir s));
    Th "Pick (Prob)" (Some "pick_prob")
       (Some (String.eqb (sortKey s) "pick_prob")) (Some (sortDir s));
    Th "Net EPA/play" (Some "net_epa_per_play")
       (Some (String.eqb (sortKey s) "net_epa_per_play")) (Some (sortDir s));
    Th "Pace K_pair" (Some "K_pair")
       (Some (String.eqb (sortKey s) "K_pair")) (Some (sortDir s)) ].

(** What the user can do: click the [n]-th header, or load (on mount and
    with the Load button), the request settling as given. *)
Inductive event : Type :=
| Click (n : nat)
| Load (settled : completion Response).

Definition step (s : state) (e : event) : state :=
  match e with
  | Click n =>
      match headers s !! n with
      | Some h =>
          match click h with
          | Some key => toggleSort key s
          | None => s
          end
      | None => s
      end
  | Load settled => snd (fetchData settled s)
  end.


Section Render.
Context {host : Host}.

(** The children of [tbody]. *)
Definition body (s : state) : list element :=
  (if loading s then [Message "Loading…" false] else [])
  ++ (if loading s then []
      else if truthy (err s) then [Message ("Error: " ++ ToString (err s)) true]
      else child (err s))
  ++ (if negb (loading s) && negb (truthy (err s)) && (length (view s) =? 0)%nat
      then [Message "No games found." false] else [])
  ++ (if negb (loading s) && negb (truthy (err s)) then map DataRow (view s) else []).

(** The three cells of a data row that [fmtNum] fills. *)
Definition cells (g : row) : list (string + error) :=
  [ fmtNum (get g "pred_margin") None;
    fmtNum (get g "net_epa_per_play") (Some 3%Z);
    fmtNum (get g "K_pair") (Some 1%Z) ].

End Render.
End Predictions.

(** ** The other revision of the predictions page, [unnamed/part_000] *)

Module Part000.
Section WithHost.
Context {host : Host}.

Definition compareFn (sortKey : string) (sortDir : dir) (a b : row) : num :=
  let av := nullish (get a sortKey) (VNum NegInf) in
  let bv := nullish (get b sortKey) (VNum NegInf) in
  if js_lt av bv then (match sortDir with asc => Fin (-1) | desc => Fin 1 end)
  else if js_lt bv av then (match sortDir with asc => Fin 1 | desc => Fin (-1) end)
  else
    let ap := nullish (get a "pick_prob") (VNum (Fin 0)) in
    let bp := nullish (get b "pick_prob") (VNum (Fin 0)) in
    js_sub bp ap.

Definition sorted (rows : list row) (sortKey : string) (sortDir : dir) : list row :=
  let copy := rows in
  Array_sort (compareFn sortKey sortDir) copy.

(** The children of [tbody] in this revision, over the same state. *)
Definition body (s : Predictions.state) : list element :=
  map DataRow
    (sorted (Predictions.rows s) (Predictions.sortKey s) (Predictions.sortDir s))
  ++ (if negb (Predictions.loading s)
         && (length (sorted (Predictions.rows s) (Predictions.sortKey s)
                       (Predictions.sortDir s)) =? 0)%nat
      then [Message "No games found." false] else [])
  ++ (if Predictions.loading s then [Message "Loading…" false] else []).

(** The banner above the table: [{err && <div>{err}</div>}]. *)
Definition banner (s : Predictions.state) : list element :=
  if truthy (Predictions.err s) then [Text (ToString (Predictions.err s))]
  else child (Predictions.err s).

End WithHost.
End Part000.

(** ** The history page, [app/history/page.tsx] *)

Module History.

(** [type HistoryRow] *)
Definition HistoryRow (r : row) : bool :=
  is_number (get r "id")
  && is_number (get r "season")
  && is_number (get r "week")
  && is_string (get r "game_id")
  && is_string (get r "created_at")
  && is_string (get r "home_team")
  && is_string (get r "away_team")
  && is_number (get r "pred_margin")
  && is_number (get r "home_win_prob")
  && is_string (get r "pick")
  && is_number (get r "pick_prob").

Record state : Type := State {
  season : Z;
  week : Z;
  limit : Z;
  rows : list row;
  loading : bool;
  err : value;
  sortKey : string;
  sortDir : dir
}.

Definition initial : state :=
  State 2025 8 200 [] false VNull "created_at" desc.

Definition setSortKey (x : string) (s : state) : state :=
  State (season s) (week s) (limit s) (rows s) (loading s) (err s) x (sortDir s).
Definition setSortDir (f : dir -> dir) (s : state) : state :=
  State (season s) (week s) (limit s) (rows s) (loading s) (err s) (sortKey s) (f (sortDir s)).

Definition toggleSort (key : string) (s : state) : state :=
  if String.eqb (sortKey s) key then setSortDir flip_dir s
  else setSortDir (fun _ => desc) (setSortKey key s).

Section WithHost.
Context {host : Host}.

Definition compareFn (sortKey : string) (sortDir : dir) (a b : row) : num :=
  let av := get a sortKey in
  let bv := get b sortKey in
  if js_lt av bv then (match sortDir with asc => Fin (-1) | desc => Fin 1 end)
  else if js_lt bv av then (match sortDir with asc => Fin 1 | desc => Fin (-1) end)
  else Fin 0.

Definition sorted (rows : list row) (sortKey : string) (sortDir : dir) : list row :=
  let copy := rows in
  Array_sort (compareFn sortKey sortDir) copy.

Definition view (s : state) : list row := sorted (rows s) (sortKey s) (sortDir s).

Definition compareFn_st (sortKey : string) (sortDir : dir) (a b : loc) : St num :=
  (av ← get_prop a sortKey ;
   bv ← get_prop b sortKey ;
   if js_lt av bv then st_ret (match sortDir with asc => Fin (-1) | desc => Fin 1 end)
   else if js_lt bv av then st_ret (match sortDir with asc => Fin 1 | desc => Fin (-1) end)
   else st_ret (Fin 0))%st.

Definition sorted_st (rows : loc) (sortKey : string) (sortDir : dir) : St loc :=
  (copy ← spread rows ;
   Array_sort_st (compareFn_st sortKey sortDir) copy ;;
   st_ret copy)%st.

(** The children of [tbody]. *)
Definition body (s : state) : list element :=
  (if loading s then [Message "Loading…" false] else [])
  ++ (if loading s then []
      else if truthy (err s) then [Message ("Error: " ++ ToString (err s)) true]
      else child (err s))
  ++ (if negb (loading s) && negb (truthy (err s)) && (length (view s) =? 0)%nat
      then [Message "No history found." false] else [])
  ++ (if negb (loading s) && negb (truthy (err s)) then map DataRow (view s) else []).

End WithHost.

Definition setRows (x : list row) (s : state) : state :=
  State (season s) (week s) (limit s) x (loading s) (err s) (sortKey s) (sortDir s).
Definition setLoading (x : bool) (s : state) : state :=
  State (season s) (week s) (limit s) (rows s) x (err s) (sortKey s) (sortDir s).
Definition setErr (x : value) (s : state) : state :=
  State (season s) (week s) (limit s) (rows s) (loading s) x (sortKey s) (sortDir s).

Local Open Scope act_scope.

(** [fetchHistory]; a response is what it is on the predictions page. *)
Definition fetchHistory (settled : completion Predictions.Response) : Act state unit :=
  modify (setLoading true) ;;
  modify (setErr VNull) ;;
  try_finally
    (try_catch
       (res ← await settled ;
        (if negb (Predictions.ok res)
         then throw (Error ("HTTP " ++ Predictions.status_text (Predictions.status res)))
         else ret tt) ;;
        data ← await (Predictions.json res) ;
        modify (setRows data))
       (fun e => modify (setErr (nullish (opt_message e) (VStr "Failed to load")))))
    (modify (setLoading false)).

(** The same in two steps, before and after the request settles. *)
Definition fetchHistory_begin (s : state) : state :=
  setErr VNull (setLoading true s).

Definition fetchHistory_resume (settled : completion Predictions.Response) :
    Act state unit :=
  try_finally
    (try_catch
       (res ← await settled ;
        (if negb (Predictions.ok res)
         then throw (Error ("HTTP " ++ Predictions.status_text (Predictions.status res)))
         else ret tt) ;;
        data ← await (Predictions.json res) ;
        modify (setRows data))
       (fun e => modify (setErr (nullish (opt_message e) (VStr "Failed to load")))))
    (modify (setLoading false)).

(** The page together with the alerts shown so far. *)
Definition alert (v : value) : Act (state * list value) unit :=
  modify (fun p => (fst p, (snd p ++ [v])%list)).

Definition on_page {A} (m : Act state A) : Act (state * list value) A :=
  fun p => let (c, s') := m (fst p) in (c, (s', snd p)).

(** [onSnapshot]: [post] is what the POST settles to, [refresh] what the
    following history request settles to. *)
Definition onSnapshot (post refresh : completion Predictions.Response) :
    Act (state * list value) unit :=
  try_catch
    (res ← await post ;
     (if negb (Predictions.ok res)
      then throw (Error ("Snapshot failed (HTTP "
                         ++ Predictions.status_text (Predictions.status res) ++ ")"))
      else ret tt) ;;
     on_page (fetchHistory refresh))
    (fun e => alert (nullish (opt_message e) (VStr "Snapshot failed"))).

Local Close Scope act_scope.

(** The header row. *)
Definition headers (s : state) : list th :=
  [ Th "Created At" (Some "created_at")
       (Some (String.eqb (sortKey s) "created_at")) (Some (sortDir s));
    Th "Season" (Some "season")
       (Some (String.eqb (sortKey s) "season")) (Some (sortDir s));
    Th "Week" (Some "week")
       (Some (String.eqb (sortKey s) "week")) (Some (sortDir s));
    Th "Game ID" (Some "game_id")
       (Some (String.eqb (sortKey s) "game_id")) (Some (sortDir s));
    Th "Matchup" None None None;
    Th "Pred Margin" (Some "pred_margin")
       (Some (String.eqb (sortKey s) "pred_margin")) (Some (sortDir s));
    Th "Home Win %" (Some "home_win_prob")
       (Some (String.eqb (sortKey s) "home_win_prob")) (Some (sortDir s));
    Th "Pick (Prob)" (Some "pick_prob")
       (Some (String.eqb (sortKey s) "pick_prob")) (Some (sortDir s)) ].

End History.

(** ** The history component that follows in [app/page.tsx] *)

Module PageHistory.

Local Open Scope act_scope.

(** Its [onSnapshot] also reports success. *)
Definition onSnapshot (post refresh : completion Predictions.Response) :
    Act (History.state * list value) unit :=
  try_catch
    (res ← await post ;
     (if negb (Predictions.ok res)
      then throw (Error ("Snapshot failed (HTTP "
                         ++ Predictions.status_text (Predictions.status res) ++ ")"))
      else ret tt) ;;
     History.on_page (History.fetchHistory refresh) ;;
     History.alert (VStr "Snapshot saved & history refreshed."))
    (fun e => History.alert (nullish (opt_message e) (VStr "Snapshot failed"))).

Local Close Scope act_scope.

End PageHistory.

(** ** The layout, [app/layout.tsx] *)

Module Layout.

(** The address of the "API Health" link. *)
Definition health_href (NEXT_PUBLIC_API_URL : value) : value :=
  nullish NEXT_PUBLIC_API_URL (VStr "http://127.0.0.1:8000/health").

End Layout.

(** ** Inputs on which the comparators are consistent

    [Array.prototype.sort] promises a sorted result only for a comparator
    that orders the elements consistently.  The predictions comparator is
    consistent on a list whose values at the sort key are all numbers or
    missing, or all strings, and whose pick probabilities are numbers or
    missing; every list of [GameView] rows is such a list for every key but
    the one declared [string | number]. *)

Definition key_of (sortKey : string) (r : row) : value :=
  nullish (get r sortKey) (VNum NegInf).

Definition prob_of (r : row) : value :=
  nullish (get r "pick_prob") (VNum (Fin 0)).

Definition numeric_at (sortKey : string) (r : row) : bool :=
  is_number (key_of sortKey r) && is_number (prob_of r).

Definition textual_at (sortKey : string) (r : row) : bool :=
  is_string (key_of sortKey r) && is_number (prob_of r).

Definition comparable (sortKey : string) (rows : list row) : bool :=
  forallb (numeric_at sortKey) rows || forallb (textual_at sortKey) rows.

(** Two rows tie on the primary key: neither [av < bv] nor [av > bv]. *)
Definition tie_at {host : Host} (sortKey : string) (a b : row) : bool :=
  negb (js_lt (key_of sortKey a) (key_of sortKey b))
  && negb (js_lt (key_of sortKey b) (key_of sortKey a)).

(** The primary test, [av < bv], and the secondary one: the sign of
    [(b.pick_prob ?? 0) - (a.pick_prob ?? 0)] is positive exactly when [a]'s
    pick probability is below [b]'s. *)
Definition key_lt {host : Host} (sortKey : string) (a b : row) : bool :=
  js_lt (key_of sortKey a) (key_of sortKey b).

Definition prob_lt {host : Host} (a b : row) : bool :=
  num_lt (ToNumber (prob_of a)) (ToNumber (prob_of b)).

(** The shape of the comparators: a primary test [kl] whose outcome is
    turned by the direction, then a secondary test [pl] that is not.  The
    value says whether [x] has to go after [y]. *)
Definition lex_after {A : Type} (kl pl : A -> A -> bool) (d : dir) (x y : A) : bool :=
  if kl x y then (match d with asc => false | desc => true end)
  else if kl y x then (match d with asc => true | desc => false end)
  else pl x y.

(** [keyof GameView] *)
Definition keyof_GameView : list string :=
  ["game_id"; "week"; "away_team"; "home_team"; "home_off_epa";
   "away_def_epa_allowed"; "home_off_vs_away_def"; "away_off_epa";
   "home_def_epa_allowed"; "away_off_vs_home_def"; "net_epa_per_play";
   "K_pair"; "pred_margin"; "home_win_prob"; "pick"; "pick_prob"].

(** The row with an explicit [-Infinity] where the value at the key is
    missing. *)
Definition explicit (sortKey : string) (r : row) : row :=
  if is_missing (get r sortKey) then <[sortKey := VNum NegInf]> r else r.

(** The references in [l] lead to the rows [rs], in order. *)
Definition points_to (h : heap) (l : list loc) (rs : list row) : Prop :=
  Forall2 (fun x r => objects h !! x = Some r) l rs.

(** ** Concrete rows *)

(** A host for closed examples.  The only strings they convert to numbers
    are ["a"] and ["b"], which are no numerals and give [NaN], and they
    print no number. *)
Definition plain_host : Host :=
  {| StringToNumber := fun _ => NaN; NumberToString := fun _ => "" |}.

(** [{pred_margin: m, pick_prob: p}] *)
Definition margin_prob (m p : Q) : row :=
  {[ "pred_margin" := VNum (Fin m); "pick_prob" := VNum (Fin p) ]}.

(** The doubles written [0.55], [0.80] and [0.60]. *)
Definition d0_55 : Q := 2476979795053773 # 4503599627370496.
Definition d0_80 : Q := 3602879701896397 # 4503599627370496.
Definition d0_60 : Q := 5404319552844595 # 9007199254740992.

(** A complete [GameView] row. *)
Definition game (id : string) (margin prob : Q) (net : value) : row :=
  {[ "game_id" := VStr id; "week" := VNum (Fin 8);
     "away_team" := VStr "BUF"; "home_team" := VStr "KC";
     "net_epa_per_play" := net;
     "pred_margin" := VNum (Fin margin); "home_win_prob" := VNum (Fin (1 # 2));
     "pick" := VStr "KC"; "pick_prob" := VNum (Fin prob) ]}.

(** A complete [HistoryRow], but for [margin] which may be any value. *)
Definition snapshot (id : Z) (margin : value) (prob : Q) : row :=
  {[ "id" := VNum (Fin (inject_Z id)); "season" := VNum (Fin 2025);
     "week" := VNum (Fin 8); "game_id" := VStr "2025_08_BUF_KC";
     "created_at" := VStr "2025-10-20T12:00:00";
     "home_team" := VStr "KC"; "away_team" := VStr "BUF";
     "pred_margin" := margin; "home_win_prob" := VNum (Fin (1 # 2));
     "pick" := VStr "KC"; "pick_prob" := VNum (Fin prob) ]}.

(** A store with the three rows of the scenario and the array [rows] at
    reference 0. *)
Definition scenario_heap : heap :=
  Heap {[ 0%nat := [0; 1; 2]%nat ]}
       {[ 0%nat := margin_prob 3 d0_55;
          1%nat := margin_prob 3 d0_80;
          2%nat := margin_prob 7 d0_60 ]}.

(** ** The history comparator's inputs *)

(** [keyof HistoryRow] *)
Definition keyof_HistoryRow : list string :=
  ["id"; "season"; "week"; "game_id"; "created_at"; "home_team"; "away_team";
   "pred_margin"; "home_win_prob"; "pick"; "pick_prob"].

(** The history comparator's test [av < bv], on the values as they are. *)
Definition hkey_lt {host : Host} (sortKey : string) (a b : row) : bool :=
  js_lt (get a sortKey) (get b sortKey).

(** Its secondary test: there is none. *)
Definition no_test (a b : row) : bool := false.

(** Neither [av < bv] nor [av > bv] on the history page. *)
Definition htie_at {host : Host} (sortKey : string) (a b : row) : bool :=
  negb (hkey_lt sortKey a b) && negb (hkey_lt sortKey b a).

Definition number_at (sortKey : string) (r : row) : bool := is_number (get r sortKey).

Definition string_at (sortKey : string) (r : row) : bool := is_string (get r sortKey).

(** The values at the sort key are all numbers or all strings, as they are
    in a list of [HistoryRow] rows at each of its keys. *)
Definition history_comparable (sortKey : string) (rows : list row) : bool :=
  forallb (number_at sortKey) rows || forallb (string_at sortKey) rows.

(** ** What the table shows *)

(** The data rows among the children of a table body, in order. *)
Definition data_of (l : list element) : list row :=
  flat_map (fun e => match e with DataRow r => [r] | _ => [] end) l.

(** The headers that carry a sort arrow, each with the key its click
    toggles. *)
Definition arrows (hs : list th) : list (option string * string) :=
  flat_map (fun h => match arrow h with Some a => [(click h, a)] | None => [] end) hs.


(** * Facts *)

(** Closed equations are settled by evaluation. *)
Ltac by_vm :=
  lazymatch goal with
  | |- ?l = ?r => exact (@eq_refl _ r <: l = r)
  end.

(** ** Order on numbers and strings *)

Lemma Qcompare_sub (x y : Q) : Qcompare 0 (y - x) = Qcompare x y.
Proof.
  destruct (Qcompare_spec x y) as [H|H|H].
  - apply Qeq_alt. rewrite H. ring.
  - apply Qlt_alt. apply (Qplus_lt_l _ _ x). ring_simplify. exact H.
  - apply Qgt_alt. apply (Qplus_lt_l _ _ x). ring_simplify. exact H.
Qed.

Lemma num_lt_sub (x y : num) :
  positive_result (num_sub y x) = num_lt x y.
Proof.
  unfold positive_result.
  destruct x as [| | |p], y as [| | |q]; simpl; try reflexivity.
  now rewrite Qcompare_sub.
Qed.

Lemma num_lt_asym (x y : num) : num_lt x y = true -> num_lt y x = false.
Proof.
  destruct x as [| | |p], y as [| | |q]; simpl; try easy.
  rewrite <- (Qcompare_antisym p q).
  destruct (Qcompare p q); simpl; easy.
Qed.

Lemma num_lt_negtrans (x y z : num) :
  is_nan y = false -> num_lt x z = true -> num_lt x y = true \/ num_lt y z = true.
Proof.
  destruct x as [| | |p], y as [| | |q], z as [| | |r]; simpl; auto; try easy.
  intros _.
  destruct (Qcompare_spec p r) as [H|H|H]; try easy. intros _.
  destruct (Qcompare_spec p q) as [H1|H1|H1]; auto.
  - right. destruct (Qcompare_spec q r) as [H2|H2|H2]; auto.
    + rewrite H1, H2 in H. now apply Qlt_irrefl in H.
    + rewrite H1 in H. exfalso. apply (Qlt_irrefl q). now apply Qlt_trans with r.
  - right. destruct (Qcompare_spec q r) as [H2|H2|H2]; auto.
    + rewrite <- H2 in H. exfalso. apply (Qlt_irrefl q). now apply Qlt_trans with p.
    + exfalso. apply (Qlt_irrefl q). apply Qlt_trans with p; [easy|].
      now apply Qlt_trans with r.
Qed.

Lemma str_lt_asym (s t : string) : str_lt s t = true -> str_lt t s = false.
Proof.
  unfold str_lt. rewrite (String.compare_antisym t s).
  destruct (String.compare s t); simpl; easy.
Qed.

Lemma str_lt_as_OT (s t : string) : str_lt s t = true <-> String_as_OT.lt s t.
Proof.
  unfold str_lt, String_as_OT.lt.
  change (String_as_OT.compare s t) with (String.compare s t).
  destruct (String.compare s t); easy.
Qed.

Lemma str_lt_negtrans (s t u : string) :
  str_lt s u = true -> str_lt s t = true \/ str_lt t u = true.
Proof.
  rewrite !str_lt_as_OT. intros Hsu.
  destruct (String_as_OT.compare_spec s t) as [H1|H1|H1].
  - hnf in H1. subst t. now right.
  - now left.
  - right. eapply (@StrictOrder_Transitive _ _ String_as_OT.lt_strorder); eauto.
Qed.

(** ** The sort *)

Section SortFacts.
Context {A : Type} (comparefn : A -> A -> num).

Lemma insert_perm (x : A) (l : list A) :
  Permutation (insert comparefn x l) (x :: l).
Proof.
  induction l as [|y l IH]; simpl; [reflexivity|].
  destruct (after comparefn x y); [|reflexivity].
  rewrite IH. apply perm_swap.
Qed.

Lemma Array_sort_perm (l : list A) : Permutation (Array_sort comparefn l) l.
Proof.
  induction l as [|x l IH]; simpl; [reflexivity|].
  rewrite insert_perm. now apply perm_skip.
Qed.

(** On a domain [P] where "has to go after" is asymmetric and negatively
    transitive, every element of the result may precede all later ones. *)
Context (P : A -> Prop).
Hypothesis after_asym :
  forall x y, P x -> P y -> after comparefn x y = true -> after comparefn y x = false.
Hypothesis after_negtrans :
  forall x y z, P x -> P y -> P z ->
    after comparefn x z = true -> after comparefn x y = true \/ after comparefn y z = true.

Let may_precede (x y : A) : Prop := after comparefn x y = false.

Lemma may_precede_trans (x y z : A) :
  P x -> P y -> P z -> may_precede x y -> may_precede y z -> may_precede x z.
Proof.
  unfold may_precede. intros Px Py Pz Hxy Hyz.
  destruct (after comparefn x z) eqn:Hxz; [|reflexivity].
  destruct (after_negtrans x y z Px Py Pz Hxz); congruence.
Qed.

Lemma insert_Forall (Q : A -> Prop) (x : A) (l : list A) :
  Q x -> Forall Q l -> Forall Q (insert comparefn x l).
Proof.
  intros Hx Hl. eapply Permutation_Forall; [symmetry; apply insert_perm|].
  now constructor.
Qed.

Lemma insert_sorted (x : A) (l : list A) :
  P x -> Forall P l ->
  StronglySorted may_precede l -> StronglySorted may_precede (insert comparefn x l).
Proof.
  intros Px. induction l as [|y l IH]; intros HP Hs; simpl.
  - repeat constructor.
  - inversion HP as [|? ? Py HPl]; subst.
    inversion Hs as [|? ? Hsl Hy]; subst.
    destruct (after comparefn x y) eqn:Hxy.
    + constructor; [now apply IH|].
      apply insert_Forall; [|exact Hy].
      unfold may_precede. now apply after_asym.
    + constructor; [exact Hs|]. constructor; [exact Hxy|].
      rewrite Forall_forall in Hy, HPl |- *. intros z Hz.
      apply (may_precede_trans x y z); auto.
Qed.

Lemma Array_sort_sorted (l : list A) :
  Forall P l -> StronglySorted may_precede (Array_sort comparefn l).
Proof.
  induction l as [|x l IH]; intros HP; simpl; [constructor|].
  inversion HP; subst.
  apply insert_sorted; auto.
  eapply Permutation_Forall; [symmetry; apply Array_sort_perm|]. assumption.
Qed.

Lemma Array_sort_ordered (l : list A) (i j : nat) (a b : A) :
  Forall P l -> (i < j)%nat ->
  Array_sort comparefn l !! i = Some a -> Array_sort comparefn l !! j = Some b ->
  after comparefn a b = false.
Proof.
  intros HP. pose proof (Array_sort_sorted l HP) as Hs.
  revert i j. induction Hs as [|x l' Hs IH Hx]; intros i j Hij Hi Hj.
  - now rewrite lookup_nil in Hi.
  - destruct j as [|j]; [lia|]. simpl in Hj.
    destruct i as [|i]; simpl in Hi.
    + injection Hi as ->. rewrite Forall_forall in Hx. apply Hx.
      eapply list_elem_of_lookup_2; eauto.
    + apply (IH i j); auto. lia.
Qed.

(** Elements that tie keep their input order. *)
Lemma tied_refl (x : A) : P x -> tied comparefn x x = true.
Proof.
  intros Px. unfold tied.
  destruct (after comparefn x x) eqn:H; [|reflexivity].
  pose proof (after_asym x x Px Px H). congruence.
Qed.

Lemma tied_not_after (x y z : A) :
  P x -> P y -> P z -> tied comparefn z x = true -> tied comparefn z y = true ->
  after comparefn x y = false.
Proof.
  unfold tied. intros Px Py Pz [Hzx Hxz]%andb_prop [Hzy Hyz]%andb_prop.
  apply negb_true_iff in Hzx, Hxz, Hzy, Hyz.
  destruct (after comparefn x y) eqn:Hxy; [|reflexivity].
  destruct (after_negtrans x z y Px Pz Py Hxy); congruence.
Qed.

Lemma insert_stable (z x : A) (l : list A) :
  P z -> P x -> Forall P l ->
  filter (fun y => tied comparefn z y = true) (insert comparefn x l)
  = filter (fun y => tied comparefn z y = true) (x :: l).
Proof.
  intros Pz Px. induction l as [|y l IH]; intros HP; [reflexivity|].
  inversion HP as [|? ? Py HPl]; subst. simpl.
  destruct (after comparefn x y) eqn:Hxy; [|reflexivity].
  rewrite !filter_cons, (IH HPl), !filter_cons.
  destruct (decide (tied comparefn z y = true)) as [Hy|Hy],
           (decide (tied comparefn z x = true)) as [Hx|Hx]; try reflexivity.
  pose proof (tied_not_after x y z Px Py Pz Hx Hy). congruence.
Qed.

Lemma Array_sort_stable (z : A) (l : list A) :
  P z -> Forall P l ->
  filter (fun y => tied comparefn z y = true) (Array_sort comparefn l)
  = filter (fun y => tied comparefn z y = true) l.
Proof.
  intros Pz. induction l as [|x l IH]; intros HP; [reflexivity|].
  inversion HP as [|? ? Px HPl]; subst. simpl.
  rewrite insert_stable; auto.
  - rewrite !filter_cons, (IH HPl). reflexivity.
  - eapply Permutation_Forall; [symmetry; apply Array_sort_perm|]. assumption.
Qed.

(** A sorted list is determined by the order within its groups of tied
    elements: whatever algorithm an engine runs, a sorted and stable
    result is the one computed here. *)
Lemma sorted_stable_unique (l1 l2 : list A) :
  Forall P l1 -> Forall P l2 ->
  StronglySorted may_precede l1 -> StronglySorted may_precede l2 ->
  (forall z, P z ->
     filter (fun y => tied comparefn z y = true) l1 = filter (fun y => tied comparefn z y = true) l2) ->
  l1 = l2.
Proof.
  revert l2. induction l1 as [|a t1 IH]; intros l2 HP1 HP2 Hs1 Hs2 Hsame.
  - destruct l2 as [|b t2]; [reflexivity|].
    inversion HP2 as [|? ? Pb _]; subst.
    specialize (Hsame b Pb). rewrite filter_cons, (tied_refl b Pb) in Hsame.
    simpl in Hsame. destruct (decide (true = true)); [discriminate|congruence].
  - inversion HP1 as [|? ? Pa HPt1]; subst.
    inversion Hs1 as [|? ? Hst1 Ha]; subst.
    destruct l2 as [|b t2].
    { specialize (Hsame a Pa). rewrite filter_cons, (tied_refl a Pa) in Hsame.
      simpl in Hsame. destruct (decide (true = true)); [discriminate|congruence]. }
    inversion HP2 as [|? ? Pb HPt2]; subst.
    inversion Hs2 as [|? ? Hst2 Hb]; subst.
    assert (Hab : a = b).
    { pose proof (Hsame a Pa) as Ea. pose proof (Hsame b Pb) as Eb.
      rewrite !filter_cons, (tied_refl a Pa) in Ea.
      rewrite !filter_cons, (tied_refl b Pb) in Eb.
      destruct (decide (true = true)) as [_|]; [|congruence].
      destruct (decide (tied comparefn a b = true)) as [Htab|Htab]; [congruence|].
      destruct (decide (tied comparefn b a = true)) as [Htba|Htba]; [congruence|].
      assert (Ha2 : a ∈ t2).
      { apply (list_elem_of_filter (fun y => tied comparefn a y = true) _ a).
        rewrite <- Ea. left. }
      assert (Hb1 : b ∈ t1).
      { apply (list_elem_of_filter (fun y => tied comparefn b y = true) _ b).
        rewrite Eb. left. }
      rewrite Forall_forall in Ha, Hb.
      pose proof (Ha b Hb1) as Hab. pose proof (Hb a Ha2) as Hba.
      unfold may_precede in Hab, Hba. unfold tied in Htab.
      rewrite Hab, Hba in Htab. simpl in Htab. congruence. }
    subst b. f_equal. apply IH; auto.
    intros z Pz. specialize (Hsame z Pz). rewrite !filter_cons in Hsame.
    destruct (decide (tied comparefn z a = true)); congruence.
Qed.

Lemma Array_sort_unique (l l' : list A) :
  Forall P l -> Permutation l' l -> StronglySorted may_precede l' ->
  (forall z, P z ->
     filter (fun y => tied comparefn z y = true) l' = filter (fun y => tied comparefn z y = true) l) ->
  l' = Array_sort comparefn l.
Proof.
  intros HP Hperm Hs Hst.
  assert (HP' : Forall P l') by (eapply Permutation_Forall; [symmetry|]; eauto).
  apply sorted_stable_unique; auto.
  - eapply Permutation_Forall; [symmetry; apply Array_sort_perm|]. assumption.
  - now apply Array_sort_sorted.
  - intros z Pz. rewrite Hst by assumption. symmetry. now apply Array_sort_stable.
Qed.

End SortFacts.

(** ** Two-level comparison *)

Section Lex.
Context {A : Type} (P : A -> Prop) (kl pl : A -> A -> bool).
Hypothesis kl_asym : forall x y, P x -> P y -> kl x y = true -> kl y x = false.
Hypothesis kl_negtrans :
  forall x y z, P x -> P y -> P z -> kl x z = true -> kl x y = true \/ kl y z = true.
Hypothesis pl_asym : forall x y, P x -> P y -> pl x y = true -> pl y x = false.
Hypothesis pl_negtrans :
  forall x y z, P x -> P y -> P z -> pl x z = true -> pl x y = true \/ pl y z = true.

Lemma lex_after_asym (d : dir) (x y : A) :
  P x -> P y -> lex_after kl pl d x y = true -> lex_after kl pl d y x = false.
Proof.
  intros Px Py. unfold lex_after.
  pose proof (kl_asym x y Px Py). pose proof (kl_asym y x Py Px).
  pose proof (pl_asym x y Px Py).
  destruct d, (kl x y), (kl y x), (pl x y), (pl y x); intuition congruence.
Qed.

Lemma lex_after_negtrans (d : dir) (x y z : A) :
  P x -> P y -> P z ->
  lex_after kl pl d x z = true -> lex_after kl pl d x y = true \/ lex_after kl pl d y z = true.
Proof.
  intros Px Py Pz. unfold lex_after.
  pose proof (kl_asym x y Px Py). pose proof (kl_asym y z Py Pz).
  pose proof (kl_asym x z Px Pz).
  pose proof (kl_negtrans x y z Px Py Pz). pose proof (kl_negtrans z y x Pz Py Px).
  pose proof (kl_negtrans x z y Px Pz Py). pose proof (kl_negtrans y x z Py Px Pz).
  pose proof (kl_negtrans y z x Py Pz Px). pose proof (kl_negtrans z x y Pz Px Py).
  pose proof (pl_negtrans x y z Px Py Pz).
  destruct d, (kl x y), (kl y x), (kl y z), (kl z y), (kl x z), (kl z x);
    try (intuition congruence);
    destruct (pl x z), (pl x y), (pl y z); intuition congruence.
Qed.

End Lex.

(** ** The predictions comparator *)

Section PredictionsOrder.
Context {host : Host}.

Lemma after_compareFn (sortKey : string) (d : dir) (a b : row) :
  after (Predictions.compareFn sortKey d) a b
  = lex_after (key_lt sortKey) prob_lt d a b.
Proof.
  unfold after, SortCompare, Predictions.compareFn, lex_after, key_lt, key_of.
  destruct (js_lt _ _); [now destruct d|].
  destruct (js_lt _ _); [now destruct d|].
  apply num_lt_sub.
Qed.

Lemma is_number_inv (v : value) :
  is_number v = true -> exists n, v = VNum n /\ is_nan n = false.
Proof.
  destruct v as [| | |n|]; simpl; try easy.
  intros H. exists n. split; [reflexivity|]. now destruct (is_nan n).
Qed.

Lemma is_string_inv (v : value) : is_string v = true -> exists s, v = VStr s.
Proof. destruct v; simpl; try easy. eauto. Qed.

Lemma prob_lt_asym (a b : row) : prob_lt a b = true -> prob_lt b a = false.
Proof. apply num_lt_asym. Qed.

Lemma prob_lt_negtrans (a b c : row) :
  is_number (prob_of b) = true ->
  prob_lt a c = true -> prob_lt a b = true \/ prob_lt b c = true.
Proof.
  intros (n & Hn & Hnan)%is_number_inv.
  unfold prob_lt. rewrite Hn. simpl. now apply num_lt_negtrans.
Qed.

Lemma key_lt_numeric_asym (sortKey : string) (a b : row) :
  numeric_at sortKey a = true -> numeric_at sortKey b = true ->
  key_lt sortKey a b = true -> key_lt sortKey b a = false.
Proof.
  intros [Ha _]%andb_prop [Hb _]%andb_prop.
  apply is_number_inv in Ha as (n & Hn & _), Hb as (m & Hm & _).
  unfold key_lt. rewrite Hn, Hm. simpl. apply num_lt_asym.
Qed.

Lemma key_lt_numeric_negtrans (sortKey : string) (a b c : row) :
  numeric_at sortKey a = true -> numeric_at sortKey b = true ->
  numeric_at sortKey c = true ->
  key_lt sortKey a c = true -> key_lt sortKey a b = true \/ key_lt sortKey b c = true.
Proof.
  intros [Ha _]%andb_prop [Hb _]%andb_prop [Hc _]%andb_prop.
  apply is_number_inv in Ha as (n & Hn & _), Hb as (m & Hm & Hnan), Hc as (k & Hk & _).
  unfold key_lt. rewrite Hn, Hm, Hk. simpl. now apply num_lt_negtrans.
Qed.

Lemma key_lt_textual_asym (sortKey : string) (a b : row) :
  textual_at sortKey a = true -> textual_at sortKey b = true ->
  key_lt sortKey a b = true -> key_lt sortKey b a = false.
Proof.
  intros [Ha _]%andb_prop [Hb _]%andb_prop.
  apply is_string_inv in Ha as (s & Hs), Hb as (t & Ht).
  unfold key_lt. rewrite Hs, Ht. simpl. apply str_lt_asym.
Qed.

Lemma key_lt_textual_negtrans (sortKey : string) (a b c : row) :
  textual_at sortKey a = true -> textual_at sortKey b = true ->
  textual_at sortKey c = true ->
  key_lt sortKey a c = true -> key_lt sortKey a b = true \/ key_lt sortKey b c = true.
Proof.
  intros [Ha _]%andb_prop [Hb _]%andb_prop [Hc _]%andb_prop.
  apply is_string_inv in Ha as (s & Hs), Hb as (t & Ht), Hc as (u & Hu).
  unfold key_lt. rewrite Hs, Ht, Hu. simpl. apply str_lt_negtrans.
Qed.

(** On a class [dom] of rows where the primary test is consistent and the
    pick probabilities are numbers, the sorted rows are in order. *)
Section OnDomain.
Context (sortKey : string) (dom : row -> bool).
Hypothesis dom_asym :
  forall a b, dom a = true -> dom b = true ->
    key_lt sortKey a b = true -> key_lt sortKey b a = false.
Hypothesis dom_negtrans :
  forall a b c, dom a = true -> dom b = true -> dom c = true ->
    key_lt sortKey a c = true -> key_lt sortKey a b = true \/ key_lt sortKey b c = true.
Hypothesis dom_prob : forall a, dom a = true -> is_number (prob_of a) = true.

Lemma sorted_ordered_on (rows : list row) (d : dir) (i j : nat) (a b : row) :
  forallb dom rows = true -> (i < j)%nat ->
  Predictions.sorted rows sortKey d !! i = Some a ->
  Predictions.sorted rows sortKey d !! j = Some b ->
  lex_after (key_lt sortKey) prob_lt d a b = false.
Proof.
  intros Hdom Hij Hi Hj. rewrite <- after_compareFn.
  rewrite forallb_forall in Hdom. apply List.Forall_forall in Hdom.
  apply (Array_sort_ordered _ (fun r => dom r = true)) with (l := rows) (i := i) (j := j);
    auto.
  - intros x y Px Py. rewrite !after_compareFn.
    apply (lex_after_asym (fun r => dom r = true)); auto using prob_lt_asym.
  - intros x y z Px Py Pz. rewrite !after_compareFn.
    apply (lex_after_negtrans (fun r => dom r = true)); auto using prob_lt_negtrans.
Qed.

End OnDomain.

Lemma numeric_at_prob (sortKey : string) (r : row) :
  numeric_at sortKey r = true -> is_number (prob_of r) = true.
Proof. now intros [_ H]%andb_prop. Qed.

Lemma textual_at_prob (sortKey : string) (r : row) :
  textual_at sortKey r = true -> is_number (prob_of r) = true.
Proof. now intros [_ H]%andb_prop. Qed.

(** In the sorted rows of a comparable list no row has to go after a later
    one. *)
Lemma sorted_ordered (rows : list row) (sortKey : string) (d : dir)
    (i j : nat) (a b : row) :
  comparable sortKey rows = true -> (i < j)%nat ->
  Predictions.sorted rows sortKey d !! i = Some a ->
  Predictions.sorted rows sortKey d !! j = Some b ->
  lex_after (key_lt sortKey) prob_lt d a b = false.
Proof.
  intros Hc. unfold comparable in Hc. apply orb_prop in Hc as [Hc|Hc].
  - apply (sorted_ordered_on sortKey (numeric_at sortKey));
      eauto using key_lt_numeric_asym, key_lt_numeric_negtrans, numeric_at_prob.
  - apply (sorted_ordered_on sortKey (textual_at sortKey));
      eauto using key_lt_textual_asym, key_lt_textual_negtrans, textual_at_prob.
Qed.

End PredictionsOrder.

(** ** Permutation *)

(** C3: on every page, for every row list, sort key and direction, the
    sorted rows are a permutation of the rows: no record is duplicated or
    lost. *)
Theorem sorted_is_permutation (host : Host) (rows : list row) (sortKey : string) (d : dir) :
  Permutation (Predictions.sorted rows sortKey d) rows
  /\ Permutation (History.sorted rows sortKey d) rows
  /\ Permutation (Part000.sorted rows sortKey d) rows.
Proof.
  repeat split; apply Array_sort_perm.
Qed.

(** ** The end-to-end scenario *)

(** C5: the rows [{pred_margin: 3, pick_prob: 0.55}],
    [{pred_margin: 3, pick_prob: 0.80}], [{pred_margin: 7, pick_prob: 0.60}]
    sorted by [pred_margin], descending, on the predictions page come out
    as the margin-7 row, the margin-3 row with 0.80, the margin-3 row with
    0.55. *)
Theorem scenario_margin_desc (host : Host) :
  Predictions.sorted
    [margin_prob 3 d0_55; margin_prob 3 d0_80; margin_prob 7 d0_60]
    "pred_margin" desc
  = [margin_prob 7 d0_60; margin_prob 3 d0_80; margin_prob 3 d0_55].
Proof.
  vm_compute. reflexivity.
Qed.

(** ** The tie-break *)

Lemma tie_lex_after {host : Host} (sortKey : string) (d : dir) (a b : row) :
  tie_at sortKey a b = true ->
  lex_after (key_lt sortKey) prob_lt d a b = prob_lt a b.
Proof.
  unfold tie_at, lex_after, key_lt. intros [H1 H2]%andb_prop.
  apply negb_true_iff in H1, H2. now rewrite H1, H2.
Qed.

Lemma ties_in_prob_order {host : Host} (rows : list row) (sortKey : string) (d : dir)
    (i j : nat) (a b : row) :
  comparable sortKey rows = true -> (i < j)%nat ->
  Predictions.sorted rows sortKey d !! i = Some a ->
  Predictions.sorted rows sortKey d !! j = Some b ->
  tie_at sortKey a b = true ->
  prob_lt a b = false.
Proof.
  intros Hc Hij Hi Hj Htie.
  rewrite <- (tie_lex_after sortKey d a b Htie).
  eapply sorted_ordered; eauto.
Qed.

Lemma tie_compareFn {host : Host} (sortKey : string) (d : dir) (a b : row) :
  tie_at sortKey a b = true ->
  Predictions.compareFn sortKey d a b = js_sub (prob_of b) (prob_of a).
Proof.
  unfold tie_at, Predictions.compareFn, key_of. intros [H1 H2]%andb_prop.
  apply negb_true_iff in H1, H2. now rewrite H1, H2.
Qed.

(** C2, as amended: on the predictions page, in the sorted rows of a
    comparable list, of two records that tie on the primary key the earlier
    one never has the lower pick probability, an absent pick probability
    counting as zero in this comparison. *)
Theorem tie_break_by_pick_prob (host : Host) (rows : list row) (sortKey : string)
    (d : dir) (i j : nat) (a b : row) :
  comparable sortKey rows = true -> (i < j)%nat ->
  Predictions.sorted rows sortKey d !! i = Some a ->
  Predictions.sorted rows sortKey d !! j = Some b ->
  tie_at sortKey a b = true ->
  num_lt (ToNumber (nullish (get a "pick_prob") (VNum (Fin 0))))
         (ToNumber (nullish (get b "pick_prob") (VNum (Fin 0)))) = false.
Proof.
  intros Hc Hij Hi Hj Htie.
  exact (ties_in_prob_order rows sortKey d i j a b Hc Hij Hi Hj Htie).
Qed.

Lemma tie_break_by_pick_prob_witness :
  let rows := [margin_prob 3 d0_55; margin_prob 3 d0_80; margin_prob 7 d0_60] in
  comparable "pred_margin" rows = true
  /\ Predictions.sorted (host := plain_host) rows "pred_margin" desc !! 1%nat
     = Some (margin_prob 3 d0_80)
  /\ Predictions.sorted (host := plain_host) rows "pred_margin" desc !! 2%nat
     = Some (margin_prob 3 d0_55)
  /\ tie_at (host := plain_host) "pred_margin" (margin_prob 3 d0_80) (margin_prob 3 d0_55) = true
  /\ num_lt (Fin d0_80) (Fin d0_55) = false.
Proof.
  cbv zeta. do 4 (split; [vm_compute; reflexivity|]).
  apply (tie_break_by_pick_prob plain_host
           [margin_prob 3 d0_55; margin_prob 3 d0_80; margin_prob 7 d0_60]
           "pred_margin" desc 1 2 (margin_prob 3 d0_80) (margin_prob 3 d0_55));
    solve [vm_compute; reflexivity | lia].
Defined.

(** C2, as stated, fails on the history page: two well-typed history rows
    that tie on [pred_margin] stay in their input order, the one with the
    lower pick probability first, under descending sort. *)
Lemma history_has_no_tie_break :
  let s1 := snapshot 1 (VNum (Fin 3)) d0_55 in
  let s2 := snapshot 2 (VNum (Fin 3)) d0_80 in
  (History.HistoryRow s1 && History.HistoryRow s2) = true
  /\ History.compareFn (host := plain_host) "pred_margin" desc s1 s2 = Fin 0
  /\ History.sorted (host := plain_host) [s1; s2] "pred_margin" desc = [s1; s2]
  /\ num_lt (Fin d0_55) (Fin d0_80) = true.
Proof.
  repeat split; vm_compute; reflexivity.
Qed.

(** C10, as amended: on the predictions page (both revisions, which sort
    alike) the comparison of two records that tie on the primary key does
    not depend on the direction; within a group of tied records of a
    comparable list the order is pick probability descending under both
    directions; and descending sort is not in general the reversal of
    ascending sort. *)
Theorem tie_break_ignores_direction (host : Host) :
  (forall sortKey a b,
      tie_at sortKey a b = true ->
      Predictions.compareFn sortKey asc a b = Predictions.compareFn sortKey desc a b)
  /\ (forall sortKey d a b,
         Part000.compareFn sortKey d a b = Predictions.compareFn sortKey d a b)
  /\ (forall rows sortKey d,
         Part000.sorted rows sortKey d = Predictions.sorted rows sortKey d)
  /\ (forall rows sortKey d i j a b,
         comparable sortKey rows = true -> (i < j)%nat ->
         Predictions.sorted rows sortKey d !! i = Some a ->
         Predictions.sorted rows sortKey d !! j = Some b ->
         tie_at sortKey a b = true ->
         prob_lt a b = false)
  /\ (forall rows sortKey d i j a b,
         comparable sortKey rows = true -> (i < j)%nat ->
         Part000.sorted rows sortKey d !! i = Some a ->
         Part000.sorted rows sortKey d !! j = Some b ->
         tie_at sortKey a b = true ->
         prob_lt a b = false)
  /\ (exists rows sortKey,
         comparable sortKey rows = true
         /\ Predictions.sorted rows sortKey desc
            <> rev (Predictions.sorted rows sortKey asc)
         /\ Part000.sorted rows sortKey desc
            <> rev (Part000.sorted rows sortKey asc)).
Proof.
  assert (Hsame : forall rows sortKey d,
             Part000.sorted rows sortKey d = Predictions.sorted rows sortKey d)
    by reflexivity.
  assert (Hdiffer :
            Predictions.sorted
              [margin_prob 3 d0_55; margin_prob 3 d0_80; margin_prob 7 d0_60]
              "pred_margin" desc
            <> rev (Predictions.sorted
                      [margin_prob 3 d0_55; margin_prob 3 d0_80; margin_prob 7 d0_60]
                      "pred_margin" asc)).
  { intros H.
    apply (f_equal (fun l => match l with
                             | _ :: r :: _ => get r "pick_prob"
                             | _ => VUndefined
                             end)) in H.
    vm_compute in H. discriminate H. }
  split; [|split; [|split; [|split; [|split]]]].
  - intros sortKey a b Htie. now rewrite !tie_compareFn.
  - reflexivity.
  - exact Hsame.
  - intros. eapply ties_in_prob_order; eauto.
  - intros rows sortKey d i j a b Hc Hij Hi Hj Htie.
    exact (ties_in_prob_order rows sortKey d i j a b Hc Hij Hi Hj Htie).
  - exists [margin_prob 3 d0_55; margin_prob 3 d0_80; margin_prob 7 d0_60], "pred_margin".
    split; [by_vm|]. split; exact Hdiffer.
Qed.

Lemma tie_break_ignores_direction_witness :
  let rows := [margin_prob 3 d0_55; margin_prob 3 d0_80; margin_prob 7 d0_60] in
  comparable "pred_margin" rows = true
  /\ Predictions.sorted (host := plain_host) rows "pred_margin" asc !! 0%nat
     = Some (margin_prob 3 d0_80)
  /\ Predictions.sorted (host := plain_host) rows "pred_margin" asc !! 1%nat
     = Some (margin_prob 3 d0_55)
  /\ tie_at (host := plain_host) "pred_margin" (margin_prob 3 d0_80) (margin_prob 3 d0_55) = true
  /\ prob_lt (host := plain_host) (margin_prob 3 d0_80) (margin_prob 3 d0_55) = false.
Proof.
  cbv zeta. do 4 (split; [by_vm|]).
  apply (proj1 (proj2 (proj2 (proj2 (tie_break_ignores_direction plain_host))))
           [margin_prob 3 d0_55; margin_prob 3 d0_80; margin_prob 7 d0_60]
           "pred_margin" asc 0%nat 1%nat (margin_prob 3 d0_80) (margin_prob 3 d0_55));
    solve [by_vm | lia].
Defined.

(** C10, as stated, fails for a key at which the list is not comparable.
    [game_id] is declared [string | number]: a string and a number whose
    string is no numeral compare as [NaN] does, neither below the other, so
    the four rows below are in order pair by pair as they stand and stay
    so under ascending sort; the two rows with id 5 tie on the primary key,
    and the one with the lower pick probability is first. *)
Lemma tied_rows_out_of_order_at_game_id :
  let ra := <["game_id" := VNum (Fin 5)]> (game "x" 3 (1 # 8) VNull) in
  let y := game "a" 3 (1 # 16) VNull in
  let u := game "b" 3 (7 # 8) VNull in
  let rb := <["game_id" := VNum (Fin 5)]> (game "x" 3 (1 # 2) VNull) in
  forallb Predictions.GameView [ra; y; u; rb] = true
  /\ In "game_id" keyof_GameView
  /\ comparable "game_id" [ra; y; u; rb] = false
  /\ tie_at (host := plain_host) "game_id" ra rb = true
  /\ Predictions.sorted (host := plain_host) [ra; y; u; rb] "game_id" asc = [ra; y; u; rb]
  /\ Part000.sorted (host := plain_host) [ra; y; u; rb] "game_id" asc = [ra; y; u; rb]
  /\ prob_lt (host := plain_host) ra rb = true.
Proof.
  cbv zeta. split; [by_vm|]. split; [simpl; tauto|]. repeat split; by_vm.
Qed.

(** ** Typed rows are comparable *)

Lemma number_field (v d : value) :
  is_number v = true -> is_number (nullish v d) = true.
Proof. now destruct v. Qed.

Lemma optional_field (v : value) :
  (is_missing v || is_number v) = true -> is_number (nullish v (VNum NegInf)) = true.
Proof. now destruct v. Qed.

Lemma string_field (v d : value) :
  is_string v = true -> is_string (nullish v d) = true.
Proof. now destruct v. Qed.

Lemma GameView_kind (sortKey : string) :
  In sortKey keyof_GameView -> sortKey <> "game_id" ->
  (forall r, Predictions.GameView r = true -> numeric_at sortKey r = true)
  \/ (forall r, Predictions.GameView r = true -> textual_at sortKey r = true).
Proof.
  intros Hin Hne. simpl in Hin.
  repeat (destruct Hin as [<-|Hin]; [try congruence|]); try contradiction;
    first
      [ left; intros r Hr; unfold Predictions.GameView in Hr;
        repeat (apply andb_prop in Hr as [Hr ?]);
        unfold numeric_at, key_of, prob_of; apply andb_true_intro; split;
        [ first [apply number_field; assumption | apply optional_field; assumption]
        | apply number_field; assumption ]
      | right; intros r Hr; unfold Predictions.GameView in Hr;
        repeat (apply andb_prop in Hr as [Hr ?]);
        unfold textual_at, key_of, prob_of; apply andb_true_intro; split;
        [ apply string_field; assumption | apply number_field; assumption ] ].
Qed.

Lemma GameView_comparable (rows : list row) (sortKey : string) :
  forallb Predictions.GameView rows = true ->
  In sortKey keyof_GameView -> sortKey <> "game_id" ->
  comparable sortKey rows = true.
Proof.
  intros Hty Hin Hne. unfold comparable. apply orb_true_iff.
  rewrite forallb_forall in Hty.
  destruct (GameView_kind sortKey Hin Hne) as [Hk|Hk]; [left|right];
    apply forallb_forall; intros r Hr; apply Hk, Hty, Hr.
Qed.

(** The sort key starts as ["pick_prob"] and changes only when a header
    toggles it, so it is always one of the five sortable columns; at each of
    them every list of [GameView] rows is comparable. *)
Lemma sortKey_sortable (s : Predictions.state) (key : string) :
  In (Predictions.sortKey Predictions.initial) Predictions.sortable
  /\ (In key Predictions.sortable ->
      In (Predictions.sortKey s) Predictions.sortable ->
      In (Predictions.sortKey (Predictions.toggleSort key s)) Predictions.sortable).
Proof.
  split; [simpl; tauto|].
  intros Hkey Hs. unfold Predictions.toggleSort.
  now destruct (String.eqb _ _).
Qed.


(** ** Missing values *)

Lemma num_lt_irrefl (x : num) : num_lt x x = false.
Proof.
  destruct x as [| | |q]; simpl; try reflexivity.
  now rewrite (proj1 (Qeq_alt q q) (Qeq_refl q)).
Qed.

Lemma js_lt_asym {host : Host} (x y : value) : js_lt x y = true -> js_lt y x = false.
Proof.
  unfold js_lt. destruct x, y; cbv beta iota;
    first [apply str_lt_asym | apply num_lt_asym].
Qed.

Lemma js_lt_irrefl {host : Host} (x : value) : js_lt x x = false.
Proof.
  destruct (js_lt x x) eqn:H; [|reflexivity].
  pose proof (js_lt_asym x x H). congruence.
Qed.

(** A row that is strictly below another on the primary key comes first
    under ascending sort and last under descending sort. *)
Lemma below_goes_first {host : Host} (rows : list row) (sortKey : string) (d : dir)
    (i j : nat) (a b : row) :
  comparable sortKey rows = true ->
  Predictions.sorted rows sortKey d !! i = Some a ->
  Predictions.sorted rows sortKey d !! j = Some b ->
  key_lt sortKey a b = true ->
  match d with asc => (i < j)%nat | desc => (j < i)%nat end.
Proof.
  intros Hc Hi Hj Hlt.
  assert (Hba : key_lt sortKey b a = false) by now apply js_lt_asym.
  assert (Hne : i <> j).
  { intros ->. rewrite Hi in Hj. injection Hj as ->.
    unfold key_lt in Hlt. now rewrite js_lt_irrefl in Hlt. }
  destruct d.
  - destruct (Nat.lt_trichotomy i j) as [H|[H|H]]; [exact H|contradiction|].
    pose proof (sorted_ordered rows sortKey asc j i b a Hc H Hj Hi) as Ho.
    unfold lex_after in Ho. now rewrite Hba, Hlt in Ho.
  - destruct (Nat.lt_trichotomy i j) as [H|[H|H]]; [|contradiction|exact H].
    pose proof (sorted_ordered rows sortKey desc i j a b Hc H Hi Hj) as Ho.
    unfold lex_after in Ho. now rewrite Hlt in Ho.
Qed.

Lemma key_of_missing (sortKey : string) (r : row) :
  is_missing (get r sortKey) = true -> key_of sortKey r = VNum NegInf.
Proof. unfold key_of. now destruct (get r sortKey). Qed.

Lemma key_of_explicit (sortKey : string) (r : row) :
  key_of sortKey (explicit sortKey r) = key_of sortKey r.
Proof.
  unfold explicit. destruct (is_missing (get r sortKey)) eqn:Hm; [|reflexivity].
  rewrite (key_of_missing _ _ Hm). unfold key_of, get.
  now rewrite lookup_insert_eq.
Qed.

Lemma get_explicit_ne (sortKey k : string) (r : row) :
  sortKey <> k -> get (explicit sortKey r) k = get r k.
Proof.
  intros Hne. unfold explicit. destruct (is_missing (get r sortKey)); [|reflexivity].
  unfold get. now rewrite lookup_insert_ne.
Qed.

Lemma missing_before_negative_infinity_at_pick_prob {host : Host} (rows : list row)
    (d : dir) (i j : nat) (a b : row) :
  comparable "pick_prob" rows = true ->
  Predictions.sorted rows "pick_prob" d !! i = Some a ->
  Predictions.sorted rows "pick_prob" d !! j = Some b ->
  is_missing (get a "pick_prob") = true ->
  get b "pick_prob" = VNum NegInf ->
  (i < j)%nat.
Proof.
  intros Hc Hi Hj Hm Hb.
  assert (Hne : i <> j).
  { intros ->. rewrite Hi in Hj. injection Hj as ->. now rewrite Hb in Hm. }
  destruct (Nat.lt_trichotomy i j) as [H|[H|H]]; [exact H|contradiction|].
  pose proof (sorted_ordered rows "pick_prob" d j i b a Hc H Hj Hi) as Ho.
  unfold lex_after, key_lt, prob_lt, key_of, prob_of in Ho.
  rewrite Hb in Ho. destruct (get a "pick_prob"); try discriminate Hm;
    simpl in Ho; destruct d; discriminate Ho.
Qed.

(** C1, as amended: on the predictions page a missing value at the sort
    key is compared as negative infinity, for every key and direction.
    Against a record whose value is greater than [-Infinity] the comparator
    gives the result that puts the record with the missing value first under
    ascending and last under descending sort.  Against a record whose value
    is [-Infinity] itself the primary comparison ties and the tie-break on
    the pick probability decides; for every sort key other than the pick
    probability the comparator cannot tell a missing value from an explicit
    [-Infinity]; at the sort key [pick_prob] the tie-break reads the missing
    value as 0, so that the record with the missing value comes first under
    both directions.  In the sorted rows of a comparable list a record with
    a missing value comes before every record whose value is greater than
    [-Infinity] under ascending sort, and after it under descending
    sort. *)
Theorem missing_compares_as_negative_infinity (host : Host) :
  (forall sortKey d a b,
      is_missing (get a sortKey) = true ->
      js_lt (VNum NegInf) (nullish (get b sortKey) (VNum NegInf)) = true ->
      Predictions.compareFn sortKey d a b
      = match d with asc => Fin (-1) | desc => Fin 1 end
      /\ Predictions.compareFn sortKey d b a
         = match d with asc => Fin 1 | desc => Fin (-1) end)
  /\ (forall sortKey d a b,
         is_missing (get a sortKey) = true ->
         get b sortKey = VNum NegInf ->
         tie_at sortKey a b = true
         /\ Predictions.compareFn sortKey d a b
            = js_sub (nullish (get b "pick_prob") (VNum (Fin 0)))
                     (nullish (get a "pick_prob") (VNum (Fin 0)))
         /\ Predictions.compareFn sortKey d b a
            = js_sub (nullish (get a "pick_prob") (VNum (Fin 0)))
                     (nullish (get b "pick_prob") (VNum (Fin 0))))
  /\ (forall sortKey d a b,
         sortKey <> "pick_prob" ->
         Predictions.compareFn sortKey d a b
         = Predictions.compareFn sortKey d (explicit sortKey a) (explicit sortKey b))
  /\ (forall d a b,
         is_missing (get a "pick_prob") = true ->
         get b "pick_prob" = VNum NegInf ->
         Predictions.compareFn "pick_prob" d a b = NegInf
         /\ Predictions.compareFn "pick_prob" d b a = PosInf)
  /\ (forall rows d i j a b,
         comparable "pick_prob" rows = true ->
         Predictions.sorted rows "pick_prob" d !! i = Some a ->
         Predictions.sorted rows "pick_prob" d !! j = Some b ->
         is_missing (get a "pick_prob") = true ->
         get b "pick_prob" = VNum NegInf ->
         (i < j)%nat)
  /\ (forall rows sortKey d i j a b,
         comparable sortKey rows = true ->
         Predictions.sorted rows sortKey d !! i = Some a ->
         Predictions.sorted rows sortKey d !! j = Some b ->
         is_missing (get a sortKey) = true ->
         js_lt (VNum NegInf) (nullish (get b sortKey) (VNum NegInf)) = true ->
         match d with asc => (i < j)%nat | desc => (j < i)%nat end).
Proof.
  split; [|split; [|split; [|split; [|split]]]].
  - intros sortKey d a b Hm Hgt.
    pose proof (js_lt_asym _ _ Hgt) as Hba.
    unfold Predictions.compareFn. cbv zeta.
    fold (key_of sortKey a) in *. rewrite (key_of_missing _ _ Hm).
    now rewrite Hgt, Hba.
  - intros sortKey d a b Hm Hb.
    unfold tie_at, Predictions.compareFn. cbv zeta.
    fold (key_of sortKey a) (key_of sortKey b).
    rewrite (key_of_missing _ _ Hm). unfold key_of. rewrite Hb. simpl.
    repeat split.
  - intros sortKey d a b Hne. unfold Predictions.compareFn.
    fold (key_of sortKey a) (key_of sortKey b)
         (key_of sortKey (explicit sortKey a)) (key_of sortKey (explicit sortKey b)).
    now rewrite !key_of_explicit, !get_explicit_ne.
  - intros d a b Hm Hb. unfold Predictions.compareFn. cbv zeta. rewrite Hb.
    destruct (get a "pick_prob"); try discriminate Hm; split; reflexivity.
  - intros rows d i j a b.
    apply missing_before_negative_infinity_at_pick_prob.
  - intros rows sortKey d i j a b Hc Hi Hj Hm Hgt.
    apply (below_goes_first rows sortKey d i j a b Hc Hi Hj).
    unfold key_lt. now rewrite (key_of_missing _ _ Hm).
Qed.

Lemma missing_compares_as_negative_infinity_witness :
  let m := game "a" 7 (1 # 4) VNull in
  let g := game "b" 3 (1 # 2) (VNum (Fin (1 # 4))) in
  comparable "net_epa_per_play" [g; m] = true
  /\ Predictions.sorted (host := plain_host) [g; m] "net_epa_per_play" asc !! 0%nat = Some m
  /\ Predictions.sorted (host := plain_host) [g; m] "net_epa_per_play" asc !! 1%nat = Some g
  /\ is_missing (get m "net_epa_per_play") = true
  /\ (0 < 1)%nat.
Proof.
  cbv zeta. do 4 (split; [by_vm|]).
  apply (proj2 (proj2 (proj2 (proj2 (proj2
           (missing_compares_as_negative_infinity plain_host)))))
           [game "b" 3 (1 # 2) (VNum (Fin (1 # 4))); game "a" 7 (1 # 4) VNull]
           "net_epa_per_play" asc 0%nat 1%nat
           (game "a" 7 (1 # 4) VNull) (game "b" 3 (1 # 2) (VNum (Fin (1 # 4)))));
    by_vm.
Defined.

(** C1, as stated, fails.  The history page puts nothing in place of a
    missing value: [null] is read as zero, so a record with a null margin
    is last, after the record with margin -3, under ascending sort, and
    first under descending sort.  And on the predictions page a record
    whose value is [-Infinity] itself ties with the missing one and may
    precede it under ascending sort. *)
Lemma missing_is_not_always_first :
  let a := snapshot 1 (VNum (Fin (-3))) (1 # 2) in
  let b := snapshot 2 VNull (1 # 2) in
  let g := game "a" 3 (3 # 4) (VNum NegInf) in
  let m := game "b" 3 (1 # 4) VNull in
  History.sorted (host := plain_host) [b; a] "pred_margin" asc = [a; b]
  /\ History.sorted (host := plain_host) [a; b] "pred_margin" desc = [b; a]
  /\ forallb Predictions.GameView [m; g] = true
  /\ Predictions.sorted (host := plain_host) [m; g] "net_epa_per_play" asc = [g; m].
Proof.
  repeat split; vm_compute; reflexivity.
Qed.

(** C6, as amended: in a list of [GameView] rows sorted ascending by
    [net_epa_per_play], a row whose value there is null comes before every
    row whose value there is a number greater than [-Infinity]. *)
Theorem null_net_epa_sorts_first (host : Host) (rows : list row) (i j : nat)
    (a b : row) (n : num) :
  forallb Predictions.GameView rows = true ->
  Predictions.sorted rows "net_epa_per_play" asc !! i = Some a ->
  Predictions.sorted rows "net_epa_per_play" asc !! j = Some b ->
  get a "net_epa_per_play" = VNull ->
  get b "net_epa_per_play" = VNum n ->
  num_lt NegInf n = true ->
  (i < j)%nat.
Proof.
  intros Hty Hi Hj Ha Hb Hn.
  assert (Hc : comparable "net_epa_per_play" rows = true).
  { apply GameView_comparable; [exact Hty| |discriminate]. simpl. tauto. }
  apply (below_goes_first rows "net_epa_per_play" asc i j a b Hc Hi Hj).
  unfold key_lt, key_of. rewrite Ha, Hb. exact Hn.
Qed.

Lemma null_net_epa_sorts_first_witness :
  let m := game "a" 7 (1 # 4) VNull in
  let g := game "b" 3 (1 # 2) (VNum (Fin (-1 # 4))) in
  forallb Predictions.GameView [g; m] = true
  /\ Predictions.sorted (host := plain_host) [g; m] "net_epa_per_play" asc !! 0%nat = Some m
  /\ Predictions.sorted (host := plain_host) [g; m] "net_epa_per_play" asc !! 1%nat = Some g
  /\ get m "net_epa_per_play" = VNull
  /\ get g "net_epa_per_play" = VNum (Fin (-1 # 4))
  /\ num_lt NegInf (Fin (-1 # 4)) = true
  /\ (0 < 1)%nat.
Proof.
  cbv zeta. do 6 (split; [vm_compute; reflexivity|]).
  apply (null_net_epa_sorts_first plain_host
           [game "b" 3 (1 # 2) (VNum (Fin (-1 # 4))); game "a" 7 (1 # 4) VNull]
           0%nat 1%nat
           (game "a" 7 (1 # 4) VNull) (game "b" 3 (1 # 2) (VNum (Fin (-1 # 4))))
           (Fin (-1 # 4)));
    vm_compute; reflexivity.
Defined.

(** C6, as stated, fails at a row whose value is [-Infinity]: it ties with
    the null row on the primary key, and having the higher pick probability
    it is placed before the null row. *)
Lemma null_net_epa_after_negative_infinity :
  let g := game "a" 3 (3 # 4) (VNum NegInf) in
  let m := game "b" 3 (1 # 4) VNull in
  forallb Predictions.GameView [m; g] = true
  /\ get m "net_epa_per_play" = VNull
  /\ get g "net_epa_per_play" = VNum NegInf
  /\ Predictions.sorted (host := plain_host) [m; g] "net_epa_per_play" asc = [g; m].
Proof.
  repeat split; vm_compute; reflexivity.
Qed.

(** ** Sorting in the store *)

Section StoreSort.
Context (c : loc -> loc -> St num) (f : row -> row -> num).
Hypothesis c_reads :
  forall h x y rx ry,
    objects h !! x = Some rx -> objects h !! y = Some ry ->
    c x y h = Some (f rx ry, h).

Lemma insert_st_spec (h : heap) (x : loc) (r : row) (l : list loc) (rs : list row) :
  objects h !! x = Some r -> points_to h l rs ->
  exists l', insert_st c x l h = Some (l', h) /\ points_to h l' (insert f r rs).
Proof.
  intros Hx Hl. induction Hl as [|y ry l rs Hy Hl IH]; simpl.
  - exists [x]. split; [reflexivity|]. now repeat constructor.
  - unfold st_bind. rewrite (c_reads h x y r ry Hx Hy).
    change (after f r ry) with (positive_result (f r ry)).
    destruct (positive_result (f r ry)).
    + destruct IH as (l' & -> & Hl'). exists (y :: l').
      split; [reflexivity|]. now constructor.
    + exists (x :: y :: l). split; [reflexivity|]. now repeat constructor.
Qed.

Lemma sort_st_spec (h : heap) (l : list loc) (rs : list row) :
  points_to h l rs ->
  exists l', sort_st c l h = Some (l', h) /\ points_to h l' (Array_sort f rs).
Proof.
  intros Hl. induction Hl as [|x r l rs Hx Hl IH]; simpl.
  - exists []. split; [reflexivity|]. constructor.
  - destruct IH as (s & Hs & Hps). unfold st_bind. rewrite Hs.
    now apply insert_st_spec.
Qed.

(** The body shared by both [sorted]: copy, sort the copy, return it. *)
Lemma copy_sort_spec (h : heap) (rows : loc) (l : list loc) (rs : list row) :
  arrays h !! rows = Some l -> points_to h l rs ->
  exists copy h' l',
    (copy ← spread rows; Array_sort_st c copy;; st_ret copy)%st h = Some (copy, h')
    /\ arrays h !! copy = None
    /\ objects h' = objects h
    /\ (forall a, a <> copy -> arrays h' !! a = arrays h !! a)
    /\ arrays h' !! copy = Some l'
    /\ points_to h' l' (Array_sort f rs).
Proof.
  intros Hrows Hl.
  set (copy := fresh (dom (arrays h))).
  assert (Hfresh : arrays h !! copy = None)
    by (apply not_elem_of_dom, is_fresh).
  set (h1 := Heap (<[copy := l]> (arrays h)) (objects h)).
  destruct (sort_st_spec h1 l rs Hl) as (l' & Hs & Hl').
  exists copy, (Heap (<[copy := l']> (arrays h1)) (objects h1)), l'.
  split; [|split; [|split; [|split; [|split]]]]; auto.
  - unfold spread, Array_sort_st, st_bind, read_array, alloc_array, write_array, st_ret.
    rewrite Hrows. fold copy. fold h1.
    change (arrays h1) with (<[copy := l]> (arrays h)) at 1.
    rewrite lookup_insert_eq. rewrite Hs.
    change (arrays h1) with (<[copy := l]> (arrays h)) at 1.
    now rewrite lookup_insert_eq.
  - intros a Ha. simpl. now rewrite !lookup_insert_ne by congruence.
  - simpl. now rewrite lookup_insert_eq.
Qed.

End StoreSort.

Lemma predictions_compareFn_reads {host : Host} (sortKey : string) (d : dir)
    (h : heap) (x y : loc) (rx ry : row) :
  objects h !! x = Some rx -> objects h !! y = Some ry ->
  Predictions.compareFn_st sortKey d x y h
  = Some (Predictions.compareFn sortKey d rx ry, h).
Proof.
  intros Hx Hy.
  unfold Predictions.compareFn_st, Predictions.compareFn, st_bind, get_prop, st_ret.
  rewrite Hx, Hy.
  destruct (js_lt _ _); [reflexivity|].
  destruct (js_lt _ _); [reflexivity|].
  rewrite Hy. cbv beta iota. now rewrite Hx.
Qed.

Lemma history_compareFn_reads {host : Host} (sortKey : string) (d : dir)
    (h : heap) (x y : loc) (rx ry : row) :
  objects h !! x = Some rx -> objects h !! y = Some ry ->
  History.compareFn_st sortKey d x y h
  = Some (History.compareFn sortKey d rx ry, h).
Proof.
  intros Hx Hy.
  unfold History.compareFn_st, History.compareFn, st_bind, get_prop, st_ret.
  rewrite Hx, Hy.
  destruct (js_lt _ _); [reflexivity|].
  destruct (js_lt _ _); reflexivity.
Qed.

(** C4: on both pages [sorted] works on a copy.  It returns a newly
    allocated array holding the rows in sorted order and leaves the stored
    array [rows] (same references, same order) and every row object as they
    were; so it can be run again, for any other key and direction, on the
    same stored rows. *)
Theorem sorted_leaves_rows_untouched (host : Host) (h : heap) (rows : loc)
    (l : list loc) (rs : list row) (sortKey : string) (d : dir) :
  arrays h !! rows = Some l -> points_to h l rs ->
  (exists copy h' l',
      Predictions.sorted_st rows sortKey d h = Some (copy, h')
      /\ copy <> rows
      /\ arrays h' !! rows = Some l
      /\ objects h' = objects h
      /\ points_to h' l rs
      /\ arrays h' !! copy = Some l'
      /\ points_to h' l' (Predictions.sorted rs sortKey d)
      /\ forall sortKey2 d2, exists copy2 h2 l2,
           Predictions.sorted_st rows sortKey2 d2 h' = Some (copy2, h2)
           /\ arrays h2 !! copy2 = Some l2
           /\ points_to h2 l2 (Predictions.sorted rs sortKey2 d2))
  /\ (exists copy h' l',
      History.sorted_st rows sortKey d h = Some (copy, h')
      /\ copy <> rows
      /\ arrays h' !! rows = Some l
      /\ objects h' = objects h
      /\ points_to h' l rs
      /\ arrays h' !! copy = Some l'
      /\ points_to h' l' (History.sorted rs sortKey d)
      /\ forall sortKey2 d2, exists copy2 h2 l2,
           History.sorted_st rows sortKey2 d2 h' = Some (copy2, h2)
           /\ arrays h2 !! copy2 = Some l2
           /\ points_to h2 l2 (History.sorted rs sortKey2 d2)).
Proof.
  intros Hrows Hl. split.
  - destruct (copy_sort_spec _ _ (predictions_compareFn_reads sortKey d)
                h rows l rs Hrows Hl)
      as (copy & h' & l' & Hrun & Hfresh & Hobj & Hframe & Hcopy & Hsorted).
    assert (Hne : copy <> rows) by congruence.
    assert (Hrows' : arrays h' !! rows = Some l) by (rewrite Hframe; auto).
    assert (Hl' : points_to h' l rs) by (unfold points_to; now rewrite Hobj).
    exists copy, h', l'. repeat (split; [assumption|]).
    intros sortKey2 d2.
    destruct (copy_sort_spec _ _ (predictions_compareFn_reads sortKey2 d2)
                h' rows l rs Hrows' Hl')
      as (copy2 & h2 & l2 & Hrun2 & _ & _ & _ & Hcopy2 & Hsorted2).
    exists copy2, h2, l2. auto.
  - destruct (copy_sort_spec _ _ (history_compareFn_reads sortKey d)
                h rows l rs Hrows Hl)
      as (copy & h' & l' & Hrun & Hfresh & Hobj & Hframe & Hcopy & Hsorted).
    assert (Hne : copy <> rows) by congruence.
    assert (Hrows' : arrays h' !! rows = Some l) by (rewrite Hframe; auto).
    assert (Hl' : points_to h' l rs) by (unfold points_to; now rewrite Hobj).
    exists copy, h', l'. repeat (split; [assumption|]).
    intros sortKey2 d2.
    destruct (copy_sort_spec _ _ (history_compareFn_reads sortKey2 d2)
                h' rows l rs Hrows' Hl')
      as (copy2 & h2 & l2 & Hrun2 & _ & _ & _ & Hcopy2 & Hsorted2).
    exists copy2, h2, l2. auto.
Qed.

Lemma sorted_leaves_rows_untouched_witness :
  arrays scenario_heap !! 0%nat = Some [0; 1; 2]%nat
  /\ points_to scenario_heap [0; 1; 2]%nat
       [margin_prob 3 d0_55; margin_prob 3 d0_80; margin_prob 7 d0_60]
  /\ exists copy h' l',
       Predictions.sorted_st (host := plain_host) 0%nat "pred_margin" desc scenario_heap
       = Some (copy, h')
       /\ arrays h' !! 0%nat = Some [0; 1; 2]%nat
       /\ objects h' = objects scenario_heap
       /\ arrays h' !! copy = Some l'
       /\ points_to h' l'
            [margin_prob 7 d0_60; margin_prob 3 d0_80; margin_prob 3 d0_55].
Proof.
  assert (Hrows : arrays scenario_heap !! 0%nat = Some [0; 1; 2]%nat)
    by (vm_compute; reflexivity).
  assert (Hl : points_to scenario_heap [0; 1; 2]%nat
                 [margin_prob 3 d0_55; margin_prob 3 d0_80; margin_prob 7 d0_60])
    by (repeat constructor).
  split; [exact Hrows|]. split; [exact Hl|].
  destruct (sorted_leaves_rows_untouched plain_host scenario_heap 0%nat
              [0; 1; 2]%nat
              [margin_prob 3 d0_55; margin_prob 3 d0_80; margin_prob 7 d0_60]
              "pred_margin" desc Hrows Hl)
    as [(copy & h' & l' & Hrun & _ & Hkeep & Hobj & _ & Hcopy & Hsorted & _) _].
  exists copy, h', l'. repeat (split; [assumption|]).
  exact Hsorted.
Defined.

(** The run of the witness, evaluated: the copy is the new array at
    reference 1 and holds the references in the order 2, 1, 0. *)
Example sorted_st_scenario (host : Host) :
  Predictions.sorted_st 0%nat "pred_margin" desc scenario_heap
  = Some (1%nat,
          Heap {[ 0%nat := [0; 1; 2]%nat; 1%nat := [2; 1; 0]%nat ]}
               (objects scenario_heap)).
Proof. vm_compute. reflexivity. Qed.

(** ** The fetch handler *)

(** C7: when the predictions fetch receives a status outside 200..299, the
    handler completes normally with the error state set to ["HTTP N"], [N]
    the status, and the row list as it was; when the fetch is rejected, the
    error state is the rejection's message, or ["Failed to load"] when it
    has none; in no case does the handler throw. *)
Theorem fetchData_reports_failure (s : Predictions.state) (res : Predictions.Response) :
  Predictions.ok res = false ->
  Predictions.fetchData (Normal res) s
  = (Normal tt,
     Predictions.State (Predictions.season s) (Predictions.week s) (Predictions.rows s)
       false (VStr ("HTTP " ++ Predictions.status_text (Predictions.status res)))
       (Predictions.sortKey s) (Predictions.sortDir s))
  /\ (forall e,
         Predictions.fetchData (Throw e) s
         = (Normal tt,
            Predictions.State (Predictions.season s) (Predictions.week s)
              (Predictions.rows s) false
              (match opt_message e with
               | VUndefined | VNull => VStr "Failed to load"
               | m => m
               end)
              (Predictions.sortKey s) (Predictions.sortDir s)))
  /\ (forall m, Predictions.err (snd (Predictions.fetchData (Throw (Error m)) s)) = VStr m)
  /\ (forall settled, fst (Predictions.fetchData settled s) = Normal tt).
Proof.
  intros Hok. repeat split.
  - unfold Predictions.fetchData, try_finally, try_catch, bind, modify, throw, ret, await.
    simpl. rewrite Hok. reflexivity.
  - intros e. unfold Predictions.fetchData, try_finally, try_catch, bind, modify, await.
    simpl. now destruct (opt_message e).
  - intros [[st [l|e']]|e];
      unfold Predictions.fetchData, try_finally, try_catch, bind, modify, throw, ret, await;
      simpl; try reflexivity;
      match goal with
      | |- context [Predictions.ok ?r] => destruct (Predictions.ok r)
      end; reflexivity.
Qed.

Lemma fetchData_reports_failure_witness :
  let res := {| Predictions.status := 500; Predictions.json := Normal [] |} in
  Predictions.ok res = false
  /\ Predictions.fetchData (Normal res) Predictions.initial
     = (Normal tt,
        Predictions.State 2025 8 [] false (VStr "HTTP 500") "pick_prob" desc).
Proof.
  cbv zeta. split; [reflexivity|].
  exact (proj1 (fetchData_reports_failure Predictions.initial
                  {| Predictions.status := 500; Predictions.json := Normal [] |}
                  eq_refl)).
Defined.

(** ** The sort toggle *)

(** C8: on both pages, toggling the active key flips the direction and
    keeps the key; toggling any other key makes it the sort key with
    direction descending (so toggling it once more gives ascending); the
    rows are not touched; and toggling the active key twice restores the
    state, hence the sorted view. *)
Theorem toggleSort_flips_or_resets (host : Host) :
  (forall s,
      Predictions.sortKey (Predictions.toggleSort (Predictions.sortKey s) s)
      = Predictions.sortKey s
      /\ Predictions.sortDir (Predictions.toggleSort (Predictions.sortKey s) s)
         = match Predictions.sortDir s with asc => desc | desc => asc end)
  /\ (forall s key,
         key <> Predictions.sortKey s ->
         Predictions.sortKey (Predictions.toggleSort key s) = key
         /\ Predictions.sortDir (Predictions.toggleSort key s) = desc)
  /\ (forall s key, Predictions.rows (Predictions.toggleSort key s) = Predictions.rows s)
  /\ (forall s key,
         key <> Predictions.sortKey s ->
         Predictions.sortKey (Predictions.toggleSort key (Predictions.toggleSort key s)) = key
         /\ Predictions.sortDir (Predictions.toggleSort key (Predictions.toggleSort key s))
            = asc)
  /\ (forall s,
         let key := Predictions.sortKey s in
         Predictions.toggleSort key (Predictions.toggleSort key s) = s
         /\ Predictions.view (Predictions.toggleSort key (Predictions.toggleSort key s))
            = Predictions.view s)
  /\ (forall s,
         History.sortKey (History.toggleSort (History.sortKey s) s) = History.sortKey s
         /\ History.sortDir (History.toggleSort (History.sortKey s) s)
            = match History.sortDir s with asc => desc | desc => asc end)
  /\ (forall s key,
         key <> History.sortKey s ->
         History.sortKey (History.toggleSort key s) = key
         /\ History.sortDir (History.toggleSort key s) = desc)
  /\ (forall s key, History.rows (History.toggleSort key s) = History.rows s)
  /\ (forall s,
         let key := History.sortKey s in
         History.toggleSort key (History.toggleSort key s) = s
         /\ History.view (History.toggleSort key (History.toggleSort key s))
            = History.view s).
Proof.
  assert (P4 : forall s, Predictions.toggleSort (Predictions.sortKey s)
                 (Predictions.toggleSort (Predictions.sortKey s) s) = s).
  { intros [? ? ? ? ? k d]. unfold Predictions.toggleSort. simpl.
    rewrite String.eqb_refl. simpl. rewrite String.eqb_refl.
    now destruct d. }
  assert (H4 : forall s, History.toggleSort (History.sortKey s)
                 (History.toggleSort (History.sortKey s) s) = s).
  { intros [? ? ? ? ? ? k d]. unfold History.toggleSort. simpl.
    rewrite String.eqb_refl. simpl. rewrite String.eqb_refl.
    now destruct d. }
  refine (conj _ (conj _ (conj _ (conj _ (conj _ (conj _ (conj _ (conj _ _)))))))).
  - intros s. unfold Predictions.toggleSort. now rewrite String.eqb_refl.
  - intros s key Hne. unfold Predictions.toggleSort.
    destruct (String.eqb_spec (Predictions.sortKey s) key); [congruence|now split].
  - intros s key. unfold Predictions.toggleSort. now destruct (String.eqb _ _).
  - intros s key Hne. unfold Predictions.toggleSort.
    destruct (String.eqb_spec (Predictions.sortKey s) key); [congruence|].
    simpl. now rewrite String.eqb_refl.
  - intros s key. subst key. split; [apply P4|now rewrite P4].
  - intros s. unfold History.toggleSort. now rewrite String.eqb_refl.
  - intros s key Hne. unfold History.toggleSort.
    destruct (String.eqb_spec (History.sortKey s) key); [congruence|now split].
  - intros s key. unfold History.toggleSort. now destruct (String.eqb _ _).
  - intros s key. subst key. split; [apply H4|now rewrite H4].
Qed.

Lemma toggleSort_flips_or_resets_witness :
  "pred_margin" <> Predictions.sortKey Predictions.initial
  /\ Predictions.toggleSort "pred_margin" Predictions.initial
     = Predictions.State 2025 8 [] false VNull "pred_margin" desc
  /\ Predictions.sortKey (Predictions.toggleSort "pred_margin" Predictions.initial)
     = "pred_margin"
  /\ Predictions.sortDir (Predictions.toggleSort "pred_margin" Predictions.initial) = desc.
Proof.
  split; [discriminate|]. split; [reflexivity|].
  apply (proj1 (proj2 (toggleSort_flips_or_resets plain_host))
           Predictions.initial "pred_margin").
  discriminate.
Defined.

(** ** The number formatter *)

Lemma length_zeros (n : nat) : String.length (zeros n) = n.
Proof. induction n; simpl; congruence. Qed.

Lemma zeros_snoc (n : nat) : zeros n ++ "0" = zeros (S n).
Proof.
  induction n as [|n IH]; [reflexivity|].
  change (String "0" (zeros n ++ "0") = String "0" (zeros (S n))).
  now rewrite IH.
Qed.

Lemma substring_whole (s : string) : substring 0 (String.length s) s = s.
Proof. induction s as [|a s IH]; simpl; [reflexivity|]. now rewrite IH. Qed.

Lemma substring_none (s : string) : substring 0 0 s = "".
Proof. now destruct s. Qed.

Lemma place_point_zero (n : nat) : place_point "0" (S n) = "0." ++ zeros (S n).
Proof.
  unfold place_point. change (String.length "0") with 1%nat.
  assert (E1 : (1 <=? S n)%nat = true) by reflexivity.
  assert (E2 : (S n + 1 - 1)%nat = S n) by lia.
  assert (E3 : (S (S n) - S n)%nat = 1%nat) by lia.
  rewrite E1, E2, zeros_snoc, length_zeros, E3.
  change (zeros (S (S n))) with (String "0" (zeros (S n))).
  change (substring 0 1 (String "0" (zeros (S n))))
    with (String "0" (substring 0 0 (zeros (S n)))).
  change (substring 1 (S n) (String "0" (zeros (S n))))
    with (substring 0 (S n) (zeros (S n))).
  pose proof (substring_whole (zeros (S n))) as Hw.
  rewrite length_zeros in Hw. rewrite Hw, substring_none.
  reflexivity.
Qed.

Lemma nearest_is_nearest (p d f : Z) :
  (0 < d)%Z ->
  (- d < 2 * (nearest p d f * d - p * 10 ^ f) <= d)%Z.
Proof.
  intros Hd. unfold nearest.
  set (N := (2 * p * 10 ^ f + d)%Z).
  assert (Hdm : N = (2 * d * (N / (2 * d)) + N mod (2 * d))%Z)
    by (apply Z.div_mod; lia).
  assert (Hb : (0 <= N mod (2 * d) < 2 * d)%Z) by (apply Z.mod_pos_bound; lia).
  assert (HN : (2 * (p * 10 ^ f) = N - d)%Z) by (unfold N; lia).
  lia.
Qed.

Lemma toFixed_zero {host : Host} (q : Q) (f : Z) :
  (q == 0)%Q -> (0 <= f <= 100)%Z ->
  toFixed (Fin q) f
  = inl (if (f =? 0)%Z then "0" else "0." ++ zeros (Z.to_nat f)).
Proof.
  intros Hq Hf. unfold toFixed.
  replace ((f <? 0) || (100 <? f))%Z with false
    by (symmetry; apply orb_false_iff; split; [apply Z.ltb_ge|apply Z.ltb_ge]; lia).
  assert (Hn : Qnum q = 0%Z).
  { unfold Qeq in Hq. simpl in Hq. lia. }
  rewrite Hn. change (Z.abs 0) with 0%Z. change (0 <? 0)%Z with false.
  assert (E : (10 ^ 21 * Z.pos (Qden q) <=? 0)%Z = false) by (apply Z.leb_gt; lia).
  rewrite E.
  assert (Hz : nearest 0 (Z.pos (Qden q)) f = 0%Z).
  { unfold nearest. apply Z.div_small. lia. }
  rewrite Hz. change (digits 0) with "0". change ("" ++ ?x) with x.
  destruct (f =? 0)%Z eqn:Hf0; [reflexivity|].
  apply Z.eqb_neq in Hf0.
  destruct (Z.to_nat f) as [|n] eqn:Hfn; [lia|].
  now rewrite place_point_zero.
Qed.

(** C9: the formatter renders a missing value, null or undefined, as the
    placeholder ["—"], which is no rendering of zero; a number [x] is
    rendered as [x.toFixed(d)], [d] being 2 by default: for a finite [x]
    below 10^21 in magnitude, the digits of the integer nearest to
    [|x| * 10^d]. *)
Theorem fmtNum_placeholder_or_fixed (host : Host) :
  (forall d,
      Predictions.fmtNum VNull d = inl "—"
      /\ Predictions.fmtNum VUndefined d = inl "—")
  /\ (forall x d, Predictions.fmtNum (VNum x) d = toFixed x (default 2%Z d))
  /\ (forall q d,
         (q == 0)%Q ->
         Predictions.fmtNum (VNum (Fin q)) d <> inl "—"
         /\ (Predictions.fmtNum (VNum (Fin q)) None = inl "0.00"))
  /\ (forall q f,
         (0 <= f <= 100)%Z ->
         (Z.abs (Qnum q) < 10 ^ 21 * Zpos (Qden q))%Z ->
         let n := nearest (Z.abs (Qnum q)) (Zpos (Qden q)) f in
         toFixed (Fin q) f
         = inl ((if (Qnum q <? 0)%Z then "-" else "")
                ++ (if (f =? 0)%Z then digits n else place_point (digits n) (Z.to_nat f)))
         /\ (- 1 < 2 * ((n # 1) - Qabs q * inject_Z (10 ^ f)) <= 1)%Q).
Proof.
  refine (conj _ (conj _ (conj _ _))).
  - now intros d.
  - reflexivity.
  - intros q d Hq. split.
    + simpl. destruct (Z_lt_le_dec (default 2%Z d) 0) as [H|H];
        [|destruct (Z_lt_le_dec 100 (default 2%Z d)) as [H'|H']].
      * unfold toFixed. replace (default 2%Z d <? 0)%Z with true
          by (symmetry; now apply Z.ltb_lt). simpl. discriminate.
      * unfold toFixed. replace (100 <? default 2%Z d)%Z with true
          by (symmetry; now apply Z.ltb_lt). rewrite orb_true_r. discriminate.
      * rewrite toFixed_zero by (auto; lia).
        destruct (_ =? 0)%Z; discriminate.
    + simpl. now rewrite toFixed_zero by (auto; lia).
  - intros q f Hf Hsmall n. split.
    + unfold toFixed.
      replace ((f <? 0) || (100 <? f))%Z with false
        by (symmetry; apply orb_false_iff; split; [apply Z.ltb_ge|apply Z.ltb_ge]; lia).
      replace (10 ^ 21 * Z.pos (Qden q) <=? Z.abs (Qnum q))%Z with false
        by (symmetry; apply Z.leb_gt; lia).
      reflexivity.
    + pose proof (nearest_is_nearest (Z.abs (Qnum q)) (Zpos (Qden q)) f
                    ltac:(lia)) as Hn.
      fold n in Hn. destruct q as [p d]. simpl in *.
      unfold Qlt, Qle, Qminus, Qplus, Qmult, Qopp, Qabs, inject_Z. simpl.
      split; nia.
Qed.

Lemma fmtNum_placeholder_or_fixed_witness :
  (0 <= 2 <= 100)%Z
  /\ (Z.abs 314159 < 10 ^ 21 * 100000)%Z
  /\ toFixed (host := plain_host) (Fin (314159 # 100000)) 2 = inl "3.14"
  /\ nearest 314159 100000 2 = 314%Z.
Proof.
  split; [lia|]. split; [reflexivity|]. split; [|reflexivity].
  exact (proj1 (proj2 (proj2 (proj2 (fmtNum_placeholder_or_fixed plain_host)))
                  (314159 # 100000) 2%Z ltac:(lia) eq_refl)).
Defined.

(** * Further facts *)

(** ** Sorting with a two-level comparator *)

Section SortedInput.
Context {A : Type} (comparefn : A -> A -> num).

(** A list in which no element has to go after a later one is left as it
    is. *)
Lemma insert_first (x : A) (l : list A) :
  Forall (fun y => after comparefn x y = false) l -> insert comparefn x l = x :: l.
Proof.
  intros H. destruct l as [|y l]; [reflexivity|].
  inversion H as [|? ? Hy _]; subst. simpl. now rewrite Hy.
Qed.

Lemma Array_sort_fixed (l : list A) :
  StronglySorted (fun x y => after comparefn x y = false) l ->
  Array_sort comparefn l = l.
Proof.
  induction 1 as [|x l Hs IH Hx]; [reflexivity|].
  simpl. rewrite IH. now apply insert_first.
Qed.

End SortedInput.

Section LexSort.
Context {A : Type} (comparefn : dir -> A -> A -> num).
Context (kl pl : A -> A -> bool) (dom : A -> bool).
Hypothesis after_lex :
  forall d a b, after (comparefn d) a b = lex_after kl pl d a b.
Hypothesis kl_asym :
  forall a b, dom a = true -> dom b = true -> kl a b = true -> kl b a = false.
Hypothesis kl_negtrans :
  forall a b c, dom a = true -> dom b = true -> dom c = true ->
    kl a c = true -> kl a b = true \/ kl b c = true.
Hypothesis pl_asym :
  forall a b, dom a = true -> dom b = true -> pl a b = true -> pl b a = false.
Hypothesis pl_negtrans :
  forall a b c, dom a = true -> dom b = true -> dom c = true ->
    pl a c = true -> pl a b = true \/ pl b c = true.

Lemma lex_asym (d : dir) (a b : A) :
  dom a = true -> dom b = true ->
  after (comparefn d) a b = true -> after (comparefn d) b a = false.
Proof.
  intros Ha Hb. rewrite !after_lex.
  now apply (lex_after_asym (fun r => dom r = true)).
Qed.

Lemma lex_negtrans (d : dir) (a b c : A) :
  dom a = true -> dom b = true -> dom c = true ->
  after (comparefn d) a c = true ->
  after (comparefn d) a b = true \/ after (comparefn d) b c = true.
Proof.
  intros Ha Hb Hc. rewrite !after_lex.
  now apply (lex_after_negtrans (fun r => dom r = true)).
Qed.

Lemma dom_Forall (l : list A) : forallb dom l = true -> Forall (fun r => dom r = true) l.
Proof. intros H. rewrite forallb_forall in H. now apply List.Forall_forall. Qed.

Lemma lex_sorted (d : dir) (l : list A) :
  forallb dom l = true ->
  StronglySorted (fun x y => after (comparefn d) x y = false) (Array_sort (comparefn d) l).
Proof.
  intros Hl.
  apply (Array_sort_sorted (comparefn d) (fun r => dom r = true)
           (lex_asym d) (lex_negtrans d)).
  now apply dom_Forall.
Qed.

Lemma lex_ordered (d : dir) (l : list A) (i j : nat) (a b : A) :
  forallb dom l = true -> (i < j)%nat ->
  Array_sort (comparefn d) l !! i = Some a ->
  Array_sort (comparefn d) l !! j = Some b ->
  lex_after kl pl d a b = false.
Proof.
  intros Hl Hij Hi Hj. rewrite <- after_lex.
  apply (Array_sort_ordered (comparefn d) (fun r => dom r = true)
           (lex_asym d) (lex_negtrans d) l i j a b); auto using dom_Forall.
Qed.

Lemma lex_in_dom (d : dir) (l : list A) (i : nat) (a : A) :
  forallb dom l = true -> Array_sort (comparefn d) l !! i = Some a -> dom a = true.
Proof.
  intros Hl Hi. apply dom_Forall in Hl.
  assert (Hs : Forall (fun r => dom r = true) (Array_sort (comparefn d) l))
    by (eapply Permutation_Forall; [symmetry; apply Array_sort_perm|]; assumption).
  rewrite Forall_forall in Hs. apply Hs. eapply list_elem_of_lookup_2; eauto.
Qed.

(** An element strictly below another on the primary test comes first
    under ascending sort and last under descending sort. *)
Lemma lex_below_first (d : dir) (l : list A) (i j : nat) (a b : A) :
  forallb dom l = true ->
  Array_sort (comparefn d) l !! i = Some a ->
  Array_sort (comparefn d) l !! j = Some b ->
  kl a b = true ->
  match d with asc => (i < j)%nat | desc => (j < i)%nat end.
Proof.
  intros Hl Hi Hj Hlt.
  pose proof (lex_in_dom d l i a Hl Hi) as Da.
  pose proof (lex_in_dom d l j b Hl Hj) as Db.
  assert (Hba : kl b a = false) by now apply kl_asym.
  assert (Hne : i <> j).
  { intros ->. rewrite Hi in Hj. injection Hj as ->. congruence. }
  destruct d.
  - destruct (Nat.lt_trichotomy i j) as [H|[H|H]]; [exact H|contradiction|].
    pose proof (lex_ordered asc l j i b a Hl H Hj Hi) as Ho.
    unfold lex_after in Ho. now rewrite Hba, Hlt in Ho.
  - destruct (Nat.lt_trichotomy i j) as [H|[H|H]]; [|contradiction|exact H].
    pose proof (lex_ordered desc l i j a b Hl H Hi Hj) as Ho.
    unfold lex_after in Ho. now rewrite Hlt in Ho.
Qed.

(** Sorting what is sorted changes nothing. *)
Lemma lex_idempotent (d : dir) (l : list A) :
  forallb dom l = true ->
  Array_sort (comparefn d) (Array_sort (comparefn d) l) = Array_sort (comparefn d) l.
Proof.
  intros Hl. apply Array_sort_fixed. now apply lex_sorted.
Qed.

(** Elements between which the comparator does not decide keep their
    input order. *)
Lemma lex_stable (d : dir) (l : list A) (z : A) :
  forallb dom l = true -> dom z = true ->
  filter (fun y => tied (comparefn d) z y = true) (Array_sort (comparefn d) l)
  = filter (fun y => tied (comparefn d) z y = true) l.
Proof.
  intros Hl Hz.
  apply Array_sort_stable with (P := fun r => dom r = true);
    first [exact (lex_asym d) | exact (lex_negtrans d) | auto using dom_Forall].
Qed.

(** The result is the only arrangement that is in order and stable. *)
Lemma lex_unique (d : dir) (l l' : list A) :
  forallb dom l = true -> Permutation l' l ->
  StronglySorted (fun x y => after (comparefn d) x y = false) l' ->
  (forall z, dom z = true ->
     filter (fun y => tied (comparefn d) z y = true) l'
     = filter (fun y => tied (comparefn d) z y = true) l) ->
  l' = Array_sort (comparefn d) l.
Proof.
  intros Hl Hperm Hs Hst.
  apply Array_sort_unique with (P := fun r => dom r = true);
    first [exact (lex_asym d) | exact (lex_negtrans d) | auto using dom_Forall].
Qed.

End LexSort.

Lemma filter_agree {A : Type} (P1 P2 : A -> Prop)
    `{!forall x, Decision (P1 x)} `{!forall x, Decision (P2 x)} (l : list A) :
  (forall x, x ∈ l -> (P1 x <-> P2 x)) -> filter P1 l = filter P2 l.
Proof.
  induction l as [|x l IH]; intros Hl; [reflexivity|].
  rewrite !filter_cons.
  assert (Hx : P1 x <-> P2 x) by (apply Hl; left).
  rewrite IH by (intros y Hy; apply Hl; now right).
  destruct (decide (P1 x)), (decide (P2 x)); tauto.
Qed.

(** ** The predictions page: order, idempotence, determinacy *)

Section PredictionsSorted.
Context {host : Host}.

Lemma predictions_after (sortKey : string) (d : dir) (a b : row) :
  after (Predictions.compareFn sortKey d) a b
  = lex_after (key_lt sortKey) prob_lt d a b.
Proof. apply after_compareFn. Qed.

Lemma numeric_prob_negtrans (sortKey : string) (a b c : row) :
  numeric_at sortKey a = true -> numeric_at sortKey b = true ->
  numeric_at sortKey c = true ->
  prob_lt a c = true -> prob_lt a b = true \/ prob_lt b c = true.
Proof. intros _ Hb _. apply prob_lt_negtrans. eapply numeric_at_prob; eauto. Qed.

Lemma textual_prob_negtrans (sortKey : string) (a b c : row) :
  textual_at sortKey a = true -> textual_at sortKey b = true ->
  textual_at sortKey c = true ->
  prob_lt a c = true -> prob_lt a b = true \/ prob_lt b c = true.
Proof. intros _ Hb _. apply prob_lt_negtrans. eapply textual_at_prob; eauto. Qed.

Lemma prob_lt_asym_on (dom : row -> bool) (a b : row) :
  dom a = true -> dom b = true -> prob_lt a b = true -> prob_lt b a = false.
Proof. intros _ _. apply prob_lt_asym. Qed.

Lemma predictions_sorted_idempotent (rows : list row) (sortKey : string) (d : dir) :
  comparable sortKey rows = true ->
  Predictions.sorted (Predictions.sorted rows sortKey d) sortKey d
  = Predictions.sorted rows sortKey d.
Proof.
  intros Hc. unfold comparable in Hc. apply orb_prop in Hc as [Hc|Hc].
  - apply (lex_idempotent (Predictions.compareFn sortKey) (key_lt sortKey) prob_lt
             (numeric_at sortKey) (predictions_after sortKey)
             (key_lt_numeric_asym sortKey) (key_lt_numeric_negtrans sortKey)
             (prob_lt_asym_on _) (numeric_prob_negtrans sortKey) d rows Hc).
  - apply (lex_idempotent (Predictions.compareFn sortKey) (key_lt sortKey) prob_lt
             (textual_at sortKey) (predictions_after sortKey)
             (key_lt_textual_asym sortKey) (key_lt_textual_negtrans sortKey)
             (prob_lt_asym_on _) (textual_prob_negtrans sortKey) d rows Hc).
Qed.


End PredictionsSorted.

(** ** The history page: order and stability *)

Section HistorySorted.
Context {host : Host}.

Lemma history_after (sortKey : string) (d : dir) (a b : row) :
  after (History.compareFn sortKey d) a b
  = lex_after (hkey_lt sortKey) no_test d a b.
Proof.
  unfold after, SortCompare, History.compareFn, lex_after, hkey_lt, no_test.
  destruct (js_lt _ _); [now destruct d|].
  destruct (js_lt _ _); [now destruct d|]. reflexivity.
Qed.

Lemma hkey_lt_asym (dom : row -> bool) (sortKey : string) (a b : row) :
  dom a = true -> dom b = true ->
  hkey_lt sortKey a b = true -> hkey_lt sortKey b a = false.
Proof. intros _ _. apply js_lt_asym. Qed.

Lemma hkey_lt_number_negtrans (sortKey : string) (a b c : row) :
  number_at sortKey a = true -> number_at sortKey b = true ->
  number_at sortKey c = true ->
  hkey_lt sortKey a c = true -> hkey_lt sortKey a b = true \/ hkey_lt sortKey b c = true.
Proof.
  intros (n & Hn & _)%is_number_inv (m & Hm & Hnan)%is_number_inv
         (k & Hk & _)%is_number_inv.
  unfold hkey_lt. rewrite Hn, Hm, Hk. simpl. now apply num_lt_negtrans.
Qed.

Lemma hkey_lt_string_negtrans (sortKey : string) (a b c : row) :
  string_at sortKey a = true -> string_at sortKey b = true ->
  string_at sortKey c = true ->
  hkey_lt sortKey a c = true -> hkey_lt sortKey a b = true \/ hkey_lt sortKey b c = true.
Proof.
  intros (s & Hs)%is_string_inv (t & Ht)%is_string_inv (u & Hu)%is_string_inv.
  unfold hkey_lt. rewrite Hs, Ht, Hu. simpl. apply str_lt_negtrans.
Qed.

Lemma no_test_asym (dom : row -> bool) (a b : row) :
  dom a = true -> dom b = true -> no_test a b = true -> no_test b a = false.
Proof. reflexivity. Qed.

Lemma no_test_negtrans (dom : row -> bool) (a b c : row) :
  dom a = true -> dom b = true -> dom c = true ->
  no_test a c = true -> no_test a b = true \/ no_test b c = true.
Proof. discriminate. Qed.

Lemma history_below_first (rows : list row) (sortKey : string) (d : dir)
    (i j : nat) (a b : row) :
  history_comparable sortKey rows = true ->
  History.sorted rows sortKey d !! i = Some a ->
  History.sorted rows sortKey d !! j = Some b ->
  hkey_lt sortKey a b = true ->
  match d with asc => (i < j)%nat | desc => (j < i)%nat end.
Proof.
  intros Hc. unfold history_comparable in Hc. apply orb_prop in Hc as [Hc|Hc].
  - apply (lex_below_first (History.compareFn sortKey) (hkey_lt sortKey) no_test
             (number_at sortKey) (history_after sortKey)
             (hkey_lt_asym _ sortKey) (hkey_lt_number_negtrans sortKey)
             (no_test_asym _) (no_test_negtrans _) d rows i j a b Hc).
  - apply (lex_below_first (History.compareFn sortKey) (hkey_lt sortKey) no_test
             (string_at sortKey) (history_after sortKey)
             (hkey_lt_asym _ sortKey) (hkey_lt_string_negtrans sortKey)
             (no_test_asym _) (no_test_negtrans _) d rows i j a b Hc).
Qed.

Lemma history_sorted_idempotent (rows : list row) (sortKey : string) (d : dir) :
  history_comparable sortKey rows = true ->
  History.sorted (History.sorted rows sortKey d) sortKey d
  = History.sorted rows sortKey d.
Proof.
  intros Hc. unfold history_comparable in Hc. apply orb_prop in Hc as [Hc|Hc].
  - apply (lex_idempotent (History.compareFn sortKey) (hkey_lt sortKey) no_test
             (number_at sortKey) (history_after sortKey)
             (hkey_lt_asym _ sortKey) (hkey_lt_number_negtrans sortKey)
             (no_test_asym _) (no_test_negtrans _) d rows Hc).
  - apply (lex_idempotent (History.compareFn sortKey) (hkey_lt sortKey) no_test
             (string_at sortKey) (history_after sortKey)
             (hkey_lt_asym _ sortKey) (hkey_lt_string_negtrans sortKey)
             (no_test_asym _) (no_test_negtrans _) d rows Hc).
Qed.

(** On the history page two rows tie for the comparator exactly when they
    tie on the key. *)
Lemma history_tied (sortKey : string) (d : dir) (a b : row) :
  tied (History.compareFn sortKey d) a b = htie_at sortKey a b.
Proof.
  unfold tied, htie_at. rewrite !history_after. unfold lex_after, no_test.
  pose proof (js_lt_asym (get a sortKey) (get b sortKey)) as H.
  unfold hkey_lt.
  destruct d, (js_lt (get a sortKey) (get b sortKey)),
    (js_lt (get b sortKey) (get a sortKey)); try reflexivity;
    specialize (H eq_refl); discriminate.
Qed.

Lemma history_stable (rows : list row) (sortKey : string) (d : dir) (z : row) :
  history_comparable sortKey rows = true -> In z rows ->
  filter (fun y => htie_at sortKey z y = true) (History.sorted rows sortKey d)
  = filter (fun y => htie_at sortKey z y = true) rows.
Proof.
  intros Hc Hz.
  rewrite (filter_agree (fun y => htie_at sortKey z y = true)
             (fun y => tied (History.compareFn sortKey d) z y = true)
             (History.sorted rows sortKey d))
    by (intros; now rewrite history_tied).
  rewrite (filter_agree (fun y => htie_at sortKey z y = true)
             (fun y => tied (History.compareFn sortKey d) z y = true) rows)
    by (intros; now rewrite history_tied).
  unfold history_comparable in Hc. apply orb_prop in Hc as [Hc|Hc].
  - apply lex_stable with (kl := hkey_lt sortKey) (pl := no_test) (dom := number_at sortKey);
      first [ exact (history_after sortKey) | exact (hkey_lt_asym _ sortKey)
            | exact (hkey_lt_number_negtrans sortKey) | exact (no_test_asym _)
            | exact (no_test_negtrans _) | exact Hc | idtac ].
    rewrite forallb_forall in Hc. now apply Hc.
  - apply lex_stable with (kl := hkey_lt sortKey) (pl := no_test) (dom := string_at sortKey);
      first [ exact (history_after sortKey) | exact (hkey_lt_asym _ sortKey)
            | exact (hkey_lt_string_negtrans sortKey) | exact (no_test_asym _)
            | exact (no_test_negtrans _) | exact Hc | idtac ].
    rewrite forallb_forall in Hc. now apply Hc.
Qed.

End HistorySorted.

Lemma HistoryRow_comparable (rows : list row) (sortKey : string) :
  forallb History.HistoryRow rows = true ->
  In sortKey keyof_HistoryRow ->
  history_comparable sortKey rows = true.
Proof.
  intros Hty Hin. unfold history_comparable. apply orb_true_iff.
  rewrite forallb_forall in Hty.
  assert (Hkind : (forall r, History.HistoryRow r = true -> number_at sortKey r = true)
                  \/ (forall r, History.HistoryRow r = true -> string_at sortKey r = true)).
  { simpl in Hin.
    repeat (destruct Hin as [<-|Hin]; [|]); try contradiction;
      first
        [ left; intros r Hr; unfold History.HistoryRow in Hr;
          repeat (apply andb_prop in Hr as [Hr ?]); unfold number_at; assumption
        | right; intros r Hr; unfold History.HistoryRow in Hr;
          repeat (apply andb_prop in Hr as [Hr ?]); unfold string_at; assumption ]. }
  destruct Hkind as [Hk|Hk]; [left|right];
    apply forallb_forall; intros r Hr; apply Hk, Hty, Hr.
Qed.

(** ** Descending against ascending *)

Lemma StronglySorted_snoc {A : Type} (R : A -> A -> Prop) (l : list A) (x : A) :
  StronglySorted R l -> Forall (fun y => R y x) l -> StronglySorted R (l ++ [x]).
Proof.
  induction 1 as [|y l Hs IH Hy]; intros Hx; simpl.
  - repeat constructor.
  - inversion Hx as [|? ? Hyx Hlx]; subst.
    constructor; [now apply IH|].
    apply Forall_app. split; [exact Hy|]. now repeat constructor.
Qed.

Lemma elem_of_rev {A : Type} (x : A) (l : list A) : x ∈ rev l <-> x ∈ l.
Proof. rewrite !list_elem_of_In. symmetry. apply in_rev. Qed.

Lemma rev_Permutation {A : Type} (l : list A) : Permutation (rev l) l.
Proof. symmetry. apply Permutation_rev. Qed.

Lemma StronglySorted_rev_on {A : Type} (R R' : A -> A -> Prop) (l : list A) :
  NoDup l -> StronglySorted R l ->
  (forall a b, a ∈ l -> b ∈ l -> a <> b -> R a b -> R' b a) ->
  StronglySorted R' (rev l).
Proof.
  intros Hnd Hs. induction Hs as [|x l Hs IH Hx]; intros Hflip; simpl.
  - constructor.
  - apply NoDup_cons in Hnd as [Hnx Hnd].
    apply StronglySorted_snoc.
    + apply IH; [exact Hnd|].
      intros a b Ha Hb. apply Hflip; now right.
    + rewrite Forall_forall in Hx |- *. intros y Hy.
      rewrite elem_of_rev in Hy.
      apply Hflip; [left|now right| |now apply Hx].
      intros ->. contradiction.
Qed.

Lemma at_most_one {A : Type} (k1 k2 : list A) :
  NoDup k1 -> (forall x y, x ∈ k1 -> y ∈ k1 -> x = y) -> Permutation k1 k2 -> k1 = k2.
Proof.
  intros Hnd Hone Hperm. destruct k1 as [|x [|y k]].
  - now apply Permutation_nil_l in Hperm.
  - now apply Permutation_singleton_l in Hperm.
  - exfalso. apply NoDup_cons in Hnd as [Hx _]. apply Hx.
    rewrite (Hone x y); [left|left|right; left].
Qed.

Section LexReverse.
Context {A : Type} (comparefn : dir -> A -> A -> num).
Context (kl pl : A -> A -> bool) (dom : A -> bool).
Hypothesis after_lex :
  forall d a b, after (comparefn d) a b = lex_after kl pl d a b.
Hypothesis kl_asym :
  forall a b, dom a = true -> dom b = true -> kl a b = true -> kl b a = false.
Hypothesis kl_negtrans :
  forall a b c, dom a = true -> dom b = true -> dom c = true ->
    kl a c = true -> kl a b = true \/ kl b c = true.
Hypothesis pl_asym :
  forall a b, dom a = true -> dom b = true -> pl a b = true -> pl b a = false.
Hypothesis pl_negtrans :
  forall a b c, dom a = true -> dom b = true -> dom c = true ->
    pl a c = true -> pl a b = true \/ pl b c = true.

(** When no two elements tie on the primary test, descending sort is the
    reversal of ascending sort. *)
Lemma lex_reverse (l : list A) :
  forallb dom l = true -> NoDup l ->
  (forall a b, a ∈ l -> b ∈ l -> kl a b = false -> kl b a = false -> a = b) ->
  Array_sort (comparefn desc) l = rev (Array_sort (comparefn asc) l).
Proof.
  intros Hdom Hnd Hdistinct. symmetry.
  pose proof (Array_sort_perm (comparefn asc) l) as Hperm.
  assert (HD : forall x, x ∈ l -> dom x = true).
  { intros x Hx. rewrite forallb_forall in Hdom. apply Hdom. now apply list_elem_of_In. }
  apply (lex_unique comparefn kl pl dom after_lex kl_asym kl_negtrans
           pl_asym pl_negtrans desc l _ Hdom).
  - now rewrite rev_Permutation.
  - apply (StronglySorted_rev_on (fun x y => after (comparefn asc) x y = false)).
    + now rewrite Hperm.
    + now apply (lex_sorted comparefn kl pl dom).
    + intros a b Ha Hb Hne Hab. rewrite Hperm in Ha, Hb.
      rewrite after_lex in Hab |- *. unfold lex_after in *.
      pose proof (kl_asym a b (HD a Ha) (HD b Hb)) as Hasym.
      pose proof (Hdistinct a b Ha Hb) as Hd.
      destruct (kl a b), (kl b a); try discriminate; try reflexivity.
      * now specialize (Hasym eq_refl).
      * now specialize (Hd eq_refl eq_refl).
  - intros z Hz. apply at_most_one.
    + apply NoDup_filter. rewrite rev_Permutation. now rewrite Hperm.
    + intros x y [Hx Hxl]%list_elem_of_filter [Hy Hyl]%list_elem_of_filter.
      rewrite elem_of_rev in Hxl, Hyl. rewrite Hperm in Hxl, Hyl.
      unfold tied in Hx, Hy. rewrite !after_lex in Hx, Hy. unfold lex_after in Hx, Hy.
      pose proof (kl_negtrans x z y (HD x Hxl) Hz (HD y Hyl)) as H1.
      pose proof (kl_negtrans y z x (HD y Hyl) Hz (HD x Hxl)) as H2.
      apply (Hdistinct x y Hxl Hyl).
      * destruct (kl x y); [|reflexivity]. specialize (H1 eq_refl).
        destruct (kl z x), (kl x z), (kl z y), (kl y z);
          simpl in Hx, Hy; try discriminate; intuition congruence.
      * destruct (kl y x); [|reflexivity]. specialize (H2 eq_refl).
        destruct (kl z x), (kl x z), (kl z y), (kl y z);
          simpl in Hx, Hy; try discriminate; intuition congruence.
    + apply filter_Permutation. now rewrite rev_Permutation.
Qed.

End LexReverse.

(** ** What the sorted rows look like *)

(** X1: on the predictions page, in the sorted rows of a comparable list, a
    record whose value at the sort key (a missing one read as negative
    infinity) is strictly less than another's comes before it under
    ascending sort and after it under descending sort. *)
Theorem sorted_orders_by_key (host : Host) (rows : list row) (sortKey : string)
    (d : dir) (i j : nat) (a b : row) :
  comparable sortKey rows = true ->
  Predictions.sorted rows sortKey d !! i = Some a ->
  Predictions.sorted rows sortKey d !! j = Some b ->
  js_lt (nullish (get a sortKey) (VNum NegInf)) (nullish (get b sortKey) (VNum NegInf))
  = true ->
  match d with asc => (i < j)%nat | desc => (j < i)%nat end.
Proof.
  intros Hc Hi Hj Hlt. exact (below_goes_first rows sortKey d i j a b Hc Hi Hj Hlt).
Qed.

Lemma sorted_orders_by_key_witness :
  let rows := [margin_prob 3 d0_55; margin_prob 3 d0_80; margin_prob 7 d0_60] in
  comparable "pred_margin" rows = true
  /\ Predictions.sorted (host := plain_host) rows "pred_margin" desc !! 1%nat
     = Some (margin_prob 3 d0_80)
  /\ Predictions.sorted (host := plain_host) rows "pred_margin" desc !! 0%nat
     = Some (margin_prob 7 d0_60)
  /\ num_lt (Fin 3) (Fin 7) = true
  /\ (0 < 1)%nat.
Proof.
  cbv zeta. do 4 (split; [by_vm|]).
  apply (sorted_orders_by_key plain_host
           [margin_prob 3 d0_55; margin_prob 3 d0_80; margin_prob 7 d0_60]
           "pred_margin" desc 1%nat 0%nat (margin_prob 3 d0_80) (margin_prob 7 d0_60));
    by_vm.
Defined.

(** X2: on the history page, for every list of [HistoryRow] rows and each
    of its keys, a record whose value at the sort key is strictly less than
    another's comes before it under ascending sort and after it under
    descending sort. *)
Theorem history_sorted_orders_by_key (host : Host) (rows : list row)
    (sortKey : string) (d : dir) (i j : nat) (a b : row) :
  forallb History.HistoryRow rows = true ->
  In sortKey keyof_HistoryRow ->
  History.sorted rows sortKey d !! i = Some a ->
  History.sorted rows sortKey d !! j = Some b ->
  js_lt (get a sortKey) (get b sortKey) = true ->
  match d with asc => (i < j)%nat | desc => (j < i)%nat end.
Proof.
  intros Hty Hin Hi Hj Hlt.
  apply (history_below_first rows sortKey d i j a b); auto.
  now apply HistoryRow_comparable.
Qed.

Lemma history_sorted_orders_by_key_witness :
  let s1 := snapshot 1 (VNum (Fin 3)) d0_55 in
  let s2 := snapshot 2 (VNum (Fin 7)) d0_80 in
  forallb History.HistoryRow [s1; s2] = true
  /\ In "pred_margin" keyof_HistoryRow
  /\ History.sorted (host := plain_host) [s1; s2] "pred_margin" desc !! 1%nat = Some s1
  /\ History.sorted (host := plain_host) [s1; s2] "pred_margin" desc !! 0%nat = Some s2
  /\ num_lt (Fin 3) (Fin 7) = true
  /\ (0 < 1)%nat.
Proof.
  cbv zeta. split; [by_vm|].
  split; [simpl; tauto|].
  do 3 (split; [by_vm|]).
  apply (history_sorted_orders_by_key plain_host
           [snapshot 1 (VNum (Fin 3)) d0_55; snapshot 2 (VNum (Fin 7)) d0_80]
           "pred_margin" desc 1%nat 0%nat
           (snapshot 1 (VNum (Fin 3)) d0_55) (snapshot 2 (VNum (Fin 7)) d0_80));
    first [by_vm | simpl; tauto].
Defined.

(** X3: the history page's sort is stable: for every list of [HistoryRow]
    rows, each of its keys and each row [z] of the list, the rows that tie
    with [z] on the key appear in the sorted rows in the order they have in
    the input. *)
Theorem history_sorted_keeps_ties (host : Host) (rows : list row)
    (sortKey : string) (d : dir) (z : row) :
  forallb History.HistoryRow rows = true ->
  In sortKey keyof_HistoryRow ->
  In z rows ->
  filter (fun y => htie_at sortKey z y = true) (History.sorted rows sortKey d)
  = filter (fun y => htie_at sortKey z y = true) rows.
Proof.
  intros Hty Hin Hz. apply history_stable; auto.
  now apply HistoryRow_comparable.
Qed.

Lemma history_sorted_keeps_ties_witness :
  let s1 := snapshot 1 (VNum (Fin 3)) d0_55 in
  let s2 := snapshot 2 (VNum (Fin 7)) d0_60 in
  let s3 := snapshot 3 (VNum (Fin 3)) d0_80 in
  forallb History.HistoryRow [s1; s2; s3] = true
  /\ In "pred_margin" keyof_HistoryRow
  /\ In s1 [s1; s2; s3]
  /\ History.sorted (host := plain_host) [s1; s2; s3] "pred_margin" desc = [s2; s1; s3]
  /\ filter (fun y => htie_at (host := plain_host) "pred_margin" s1 y = true)
       (History.sorted (host := plain_host) [s1; s2; s3] "pred_margin" desc)
     = filter (fun y => htie_at (host := plain_host) "pred_margin" s1 y = true)
         [s1; s2; s3].
Proof.
  cbv zeta. split; [by_vm|].
  split; [simpl; tauto|]. split; [simpl; tauto|].
  split; [by_vm|].
  apply (history_sorted_keeps_ties plain_host
           [snapshot 1 (VNum (Fin 3)) d0_55; snapshot 2 (VNum (Fin 7)) d0_60;
            snapshot 3 (VNum (Fin 3)) d0_80]
           "pred_margin" desc (snapshot 1 (VNum (Fin 3)) d0_55));
    first [by_vm | simpl; tauto].
Defined.

(** X4: sorting the sorted rows again, by the same key and direction,
    changes nothing: on the predictions page for a comparable list, on the
    history page for a list whose values at the key are all numbers or all
    strings. *)
Theorem sorted_twice_is_sorted_once (host : Host) (rows : list row)
    (sortKey : string) (d : dir) :
  (comparable sortKey rows = true ->
   Predictions.sorted (Predictions.sorted rows sortKey d) sortKey d
   = Predictions.sorted rows sortKey d)
  /\ (history_comparable sortKey rows = true ->
      History.sorted (History.sorted rows sortKey d) sortKey d
      = History.sorted rows sortKey d).
Proof.
  split.
  - apply predictions_sorted_idempotent.
  - apply history_sorted_idempotent.
Qed.

Lemma sorted_twice_is_sorted_once_witness :
  let rows := [margin_prob 3 d0_55; margin_prob 3 d0_80; margin_prob 7 d0_60] in
  comparable "pred_margin" rows = true
  /\ Predictions.sorted (host := plain_host)
       (Predictions.sorted (host := plain_host) rows "pred_margin" desc) "pred_margin" desc
     = Predictions.sorted (host := plain_host) rows "pred_margin" desc.
Proof.
  cbv zeta. split; [by_vm|].
  apply (proj1 (sorted_twice_is_sorted_once plain_host
                  [margin_prob 3 d0_55; margin_prob 3 d0_80; margin_prob 7 d0_60]
                  "pred_margin" desc)).
  by_vm.
Defined.

Lemma rows_differ (k : string) (a b : row) : get a k <> get b k -> a <> b.
Proof. congruence. Qed.

Section Reversal.
Context {host : Host}.

Lemma predictions_reverse (rows : list row) (sortKey : string) :
  comparable sortKey rows = true -> NoDup rows ->
  (forall a b, In a rows -> In b rows -> tie_at sortKey a b = true -> a = b) ->
  Predictions.sorted rows sortKey desc = rev (Predictions.sorted rows sortKey asc).
Proof.
  intros Hc Hnd Hties.
  assert (Hd : forall a b, a ∈ rows -> b ∈ rows ->
                 key_lt sortKey a b = false -> key_lt sortKey b a = false -> a = b).
  { intros a b Ha Hb H1 H2. apply Hties; try now apply list_elem_of_In.
    unfold tie_at. unfold key_lt in H1, H2. now rewrite H1, H2. }
  unfold comparable in Hc. apply orb_prop in Hc as [Hc|Hc].
  - apply (lex_reverse (Predictions.compareFn sortKey) (key_lt sortKey) prob_lt
             (numeric_at sortKey) (predictions_after sortKey)
             (key_lt_numeric_asym sortKey) (key_lt_numeric_negtrans sortKey)
             (prob_lt_asym_on _) (numeric_prob_negtrans sortKey) rows Hc Hnd Hd).
  - apply (lex_reverse (Predictions.compareFn sortKey) (key_lt sortKey) prob_lt
             (textual_at sortKey) (predictions_after sortKey)
             (key_lt_textual_asym sortKey) (key_lt_textual_negtrans sortKey)
             (prob_lt_asym_on _) (textual_prob_negtrans sortKey) rows Hc Hnd Hd).
Qed.

Lemma history_reverse (rows : list row) (sortKey : string) :
  history_comparable sortKey rows = true -> NoDup rows ->
  (forall a b, In a rows -> In b rows -> htie_at sortKey a b = true -> a = b) ->
  History.sorted rows sortKey desc = rev (History.sorted rows sortKey asc).
Proof.
  intros Hc Hnd Hties.
  assert (Hd : forall a b, a ∈ rows -> b ∈ rows ->
                 hkey_lt sortKey a b = false -> hkey_lt sortKey b a = false -> a = b).
  { intros a b Ha Hb H1 H2. apply Hties; try now apply list_elem_of_In.
    unfold htie_at. now rewrite H1, H2. }
  unfold history_comparable in Hc. apply orb_prop in Hc as [Hc|Hc].
  - apply (lex_reverse (History.compareFn sortKey) (hkey_lt sortKey) no_test
             (number_at sortKey) (history_after sortKey)
             (hkey_lt_asym _ sortKey) (hkey_lt_number_negtrans sortKey)
             (no_test_asym _) (no_test_negtrans _) rows Hc Hnd Hd).
  - apply (lex_reverse (History.compareFn sortKey) (hkey_lt sortKey) no_test
             (string_at sortKey) (history_after sortKey)
             (hkey_lt_asym _ sortKey) (hkey_lt_string_negtrans sortKey)
             (no_test_asym _) (no_test_negtrans _) rows Hc Hnd Hd).
Qed.

End Reversal.

(** X5: when no two records of the list tie on the sort key, descending
    sort is exactly the reversal of ascending sort, on the predictions page
    (for a comparable list) and on the history page (for values at the key
    that are all numbers or all strings). *)
Theorem descending_reverses_ascending_without_ties (host : Host) (rows : list row)
    (sortKey : string) :
  NoDup rows ->
  (comparable sortKey rows = true ->
   (forall a b, In a rows -> In b rows -> tie_at sortKey a b = true -> a = b) ->
   Predictions.sorted rows sortKey desc = rev (Predictions.sorted rows sortKey asc))
  /\ (history_comparable sortKey rows = true ->
      (forall a b, In a rows -> In b rows -> htie_at sortKey a b = true -> a = b) ->
      History.sorted rows sortKey desc = rev (History.sorted rows sortKey asc)).
Proof.
  intros Hnd. split; intros Hc Hties.
  - now apply predictions_reverse.
  - now apply history_reverse.
Qed.

Lemma descending_reverses_ascending_without_ties_witness :
  let rows := [margin_prob 3 d0_55; margin_prob 7 d0_60; margin_prob 5 d0_80] in
  NoDup rows
  /\ comparable "pred_margin" rows = true
  /\ (forall a b, In a rows -> In b rows ->
        tie_at (host := plain_host) "pred_margin" a b = true -> a = b)
  /\ Predictions.sorted (host := plain_host) rows "pred_margin" desc
     = [margin_prob 7 d0_60; margin_prob 5 d0_80; margin_prob 3 d0_55]
  /\ Predictions.sorted (host := plain_host) rows "pred_margin" desc
     = rev (Predictions.sorted (host := plain_host) rows "pred_margin" asc).
Proof.
  cbv zeta.
  assert (Hnd : NoDup [margin_prob 3 d0_55; margin_prob 7 d0_60; margin_prob 5 d0_80]).
  { repeat constructor; rewrite ?list_elem_of_In; simpl;
      intros H;
      repeat (destruct H as [H|H];
              [revert H; apply (rows_differ "pred_margin"); vm_compute; discriminate|]);
      exact H. }
  assert (Hties : forall a b,
             In a [margin_prob 3 d0_55; margin_prob 7 d0_60; margin_prob 5 d0_80] ->
             In b [margin_prob 3 d0_55; margin_prob 7 d0_60; margin_prob 5 d0_80] ->
             tie_at (host := plain_host) "pred_margin" a b = true -> a = b).
  { intros a b Ha Hb. simpl in Ha, Hb.
    repeat (destruct Ha as [<-|Ha]; [|]); try contradiction;
      repeat (destruct Hb as [<-|Hb]; [|]); try contradiction;
      first [ intros _; reflexivity
            | intros Ht; exfalso;
              match type of Ht with
              | ?t = true => assert (E : t = false) by by_vm; rewrite E in Ht
              end; discriminate Ht ]. }
  split; [exact Hnd|]. split; [by_vm|].
  split; [exact Hties|]. split; [by_vm|].
  apply (proj1 (descending_reverses_ascending_without_ties plain_host
                  [margin_prob 3 d0_55; margin_prob 7 d0_60; margin_prob 5 d0_80]
                  "pred_margin" Hnd)); [by_vm|exact Hties].
Defined.



(** ** Fetching *)

Lemma fetchData_ok (s : Predictions.state) (res : Predictions.Response) :
  Predictions.ok res = true ->
  Predictions.fetchData (Normal res) s
  = (Normal tt,
     match Predictions.json res with
     | Normal data =>
         Predictions.State (Predictions.season s) (Predictions.week s) data false VNull
           (Predictions.sortKey s) (Predictions.sortDir s)
     | Throw e =>
         Predictions.State (Predictions.season s) (Predictions.week s)
           (Predictions.rows s) false
           (nullish (opt_message e) (VStr "Failed to load"))
           (Predictions.sortKey s) (Predictions.sortDir s)
     end).
Proof.
  intros Hok.
  unfold Predictions.fetchData, try_finally, try_catch, bind, modify, throw, ret, await.
  simpl. rewrite Hok. simpl. now destruct (Predictions.json res).
Qed.

Lemma nullish_not_missing (v d : value) :
  is_missing d = false -> is_missing (nullish v d) = false.
Proof. now destruct v. Qed.

Lemma fetchData_settles (settled : completion Predictions.Response)
    (s : Predictions.state) :
  let s' := snd (Predictions.fetchData settled s) in
  Predictions.loading s' = false
  /\ Predictions.season s' = Predictions.season s
  /\ Predictions.week s' = Predictions.week s
  /\ Predictions.sortKey s' = Predictions.sortKey s
  /\ Predictions.sortDir s' = Predictions.sortDir s
  /\ ((exists res data,
          settled = Normal res /\ Predictions.ok res = true
          /\ Predictions.json res = Normal data
          /\ Predictions.rows s' = data /\ Predictions.err s' = VNull)
      \/ (Predictions.rows s' = Predictions.rows s
          /\ is_missing (Predictions.err s') = false)).
Proof.
  destruct settled as [res|e].
  - destruct (Predictions.ok res) eqn:Hok.
    + cbv zeta. rewrite (fetchData_ok s res Hok).
      destruct (Predictions.json res) as [data|e] eqn:Hj; simpl.
      * repeat (split; [reflexivity|]). left. exists res, data. auto.
      * repeat (split; [reflexivity|]). right. split; [reflexivity|].
        now apply nullish_not_missing.
    + unfold Predictions.fetchData, try_finally, try_catch, bind, modify, throw, ret,
        await. simpl. rewrite Hok. simpl.
      repeat (split; [reflexivity|]). now right.
  - unfold Predictions.fetchData, try_finally, try_catch, bind, modify, await. simpl.
    repeat (split; [reflexivity|]). right. split; [reflexivity|].
    now apply nullish_not_missing.
Qed.

(** X7: when the predictions request is answered with a status in 200..299,
    the handler ends with loading off and, if the body decodes, with the
    decoded rows in place of the old ones and no error, whatever error was
    there before; if the body does not decode, with the old rows and the
    decoder's message (or ["Failed to load"]) as the error. *)
Theorem fetchData_on_ok_response (s : Predictions.state) (res : Predictions.Response) :
  Predictions.ok res = true ->
  Predictions.fetchData (Normal res) s
  = (Normal tt,
     match Predictions.json res with
     | Normal data =>
         Predictions.State (Predictions.season s) (Predictions.week s) data false VNull
           (Predictions.sortKey s) (Predictions.sortDir s)
     | Throw e =>
         Predictions.State (Predictions.season s) (Predictions.week s)
           (Predictions.rows s) false
           (nullish (opt_message e) (VStr "Failed to load"))
           (Predictions.sortKey s) (Predictions.sortDir s)
     end).
Proof.
  intros Hok. rewrite (fetchData_ok s res Hok).
  now destruct (Predictions.json res).
Qed.

Lemma fetchData_on_ok_response_witness :
  let res := {| Predictions.status := 200;
                Predictions.json := Normal [margin_prob 3 d0_55] |} in
  let s := Predictions.State 2025 8 [] false (VStr "HTTP 500") "pick_prob" desc in
  Predictions.ok res = true
  /\ Predictions.fetchData (Normal res) s
     = (Normal tt,
        Predictions.State 2025 8 [margin_prob 3 d0_55] false VNull "pick_prob" desc).
Proof.
  cbv zeta. split; [reflexivity|].
  exact (fetchData_on_ok_response
           (Predictions.State 2025 8 [] false (VStr "HTTP 500") "pick_prob" desc)
           {| Predictions.status := 200;
              Predictions.json := Normal [margin_prob 3 d0_55] |} eq_refl).
Defined.

(** X8: whatever the request settles to, the handler leaves the season,
    the week and the sort state alone and ends with loading off; the rows
    change only when a response in 200..299 decodes, and the error is null
    afterwards in that case and in no other. *)
Theorem fetchData_frame (settled : completion Predictions.Response)
    (s : Predictions.state) :
  let s' := snd (Predictions.fetchData settled s) in
  Predictions.loading s' = false
  /\ Predictions.season s' = Predictions.season s
  /\ Predictions.week s' = Predictions.week s
  /\ Predictions.sortKey s' = Predictions.sortKey s
  /\ Predictions.sortDir s' = Predictions.sortDir s
  /\ ((exists res data,
          settled = Normal res /\ Predictions.ok res = true
          /\ Predictions.json res = Normal data
          /\ Predictions.rows s' = data /\ Predictions.err s' = VNull)
      \/ (Predictions.rows s' = Predictions.rows s
          /\ is_missing (Predictions.err s') = false)).
Proof.
  cbv zeta. pose proof (fetchData_settles settled s) as H. cbv zeta in H.
  exact H.
Qed.

Section Pending.
Context {host : Host}.

(** X9: [fetchData] is its first step followed, once the request has
    settled, by the rest; in between, loading is on, the previous error is
    already gone, the rows are still held, and the table shows the loading
    message and nothing else. *)
Theorem fetchData_pending (settled : completion Predictions.Response)
    (s : Predictions.state) :
  Predictions.fetchData settled s
  = Predictions.fetchData_resume settled (Predictions.fetchData_begin s)
  /\ Predictions.loading (Predictions.fetchData_begin s) = true
  /\ Predictions.err (Predictions.fetchData_begin s) = VNull
  /\ Predictions.rows (Predictions.fetchData_begin s) = Predictions.rows s
  /\ Predictions.body (Predictions.fetchData_begin s) = [Message "Loading…" false].
Proof.
  repeat split.
Qed.

End Pending.

(** ** The history page's requests *)

Lemma fetchHistory_ok (s : History.state) (res : Predictions.Response)
    (data : list row) :
  Predictions.ok res = true -> Predictions.json res = Normal data ->
  History.fetchHistory (Normal res) s
  = (Normal tt,
     History.State (History.season s) (History.week s) (History.limit s)
       data false VNull (History.sortKey s) (History.sortDir s)).
Proof.
  intros Hok Hj.
  unfold History.fetchHistory, try_finally, try_catch, bind, modify, throw, ret, await.
  simpl. rewrite Hok. simpl. now rewrite Hj.
Qed.

Lemma fetchHistory_returns (settled : completion Predictions.Response)
    (s : History.state) :
  fst (History.fetchHistory settled s) = Normal tt
  /\ History.loading (snd (History.fetchHistory settled s)) = false.
Proof.
  destruct settled as [[st [l|e']]|e];
    unfold History.fetchHistory, try_finally, try_catch, bind, modify, throw, ret, await;
    simpl; try (split; reflexivity);
    match goal with
    | |- context [Predictions.ok ?r] => destruct (Predictions.ok r)
    end; split; reflexivity.
Qed.

(** X10: [fetchHistory] ends with loading off and never throws.  A status
    outside 200..299 leaves the rows and sets the error to ["HTTP N"]; a
    rejected request leaves the rows and sets the error to the rejection's
    message, or ["Failed to load"]; a response in 200..299 that decodes
    replaces the rows and leaves no error. *)
Theorem fetchHistory_outcomes (s : History.state) :
  (forall res,
      Predictions.ok res = false ->
      History.fetchHistory (Normal res) s
      = (Normal tt,
         History.State (History.season s) (History.week s) (History.limit s)
           (History.rows s) false
           (VStr ("HTTP " ++ Predictions.status_text (Predictions.status res)))
           (History.sortKey s) (History.sortDir s)))
  /\ (forall e,
         History.fetchHistory (Throw e) s
         = (Normal tt,
            History.State (History.season s) (History.week s) (History.limit s)
              (History.rows s) false
              (nullish (opt_message e) (VStr "Failed to load"))
              (History.sortKey s) (History.sortDir s)))
  /\ (forall res data,
         Predictions.ok res = true -> Predictions.json res = Normal data ->
         History.fetchHistory (Normal res) s
         = (Normal tt,
            History.State (History.season s) (History.week s) (History.limit s)
              data false VNull (History.sortKey s) (History.sortDir s)))
  /\ (forall settled,
         fst (History.fetchHistory settled s) = Normal tt
         /\ History.loading (snd (History.fetchHistory settled s)) = false).
Proof.
  refine (conj _ (conj _ (conj _ _))).
  - intros res Hok.
    unfold History.fetchHistory, try_finally, try_catch, bind, modify, throw, ret, await.
    simpl. now rewrite Hok.
  - intros e. reflexivity.
  - intros res data. apply fetchHistory_ok.
  - intros settled. apply fetchHistory_returns.
Qed.

Lemma fetchHistory_outcomes_witness :
  let res := {| Predictions.status := 404; Predictions.json := Normal [] |} in
  Predictions.ok res = false
  /\ History.fetchHistory (Normal res) History.initial
     = (Normal tt,
        History.State 2025 8 200 [] false (VStr "HTTP 404") "created_at" desc).
Proof.
  cbv zeta. split; [reflexivity|].
  exact (proj1 (fetchHistory_outcomes History.initial)
           {| Predictions.status := 404; Predictions.json := Normal [] |} eq_refl).
Defined.

Section Overlap.
Context {host : Host}.

(** X11: two history requests in flight (a snapshot's refresh started while
    a load is pending).  Each clears the error when it starts and none when
    it ends: if the one that settles first fails with status [N] and the
    other then succeeds, the new rows are stored but the error of the
    first stays, and the table shows that error instead of the rows.  Run
    one after the other, the same two outcomes leave no error. *)
Theorem overlapping_history_requests (s : History.state)
    (failed answered : Predictions.Response) (data : list row) :
  Predictions.ok failed = false ->
  Predictions.ok answered = true ->
  Predictions.json answered = Normal data ->
  let started := History.fetchHistory_begin (History.fetchHistory_begin s) in
  let first := snd (History.fetchHistory_resume (Normal failed) started) in
  let last := snd (History.fetchHistory_resume (Normal answered) first) in
  let message := "HTTP " ++ Predictions.status_text (Predictions.status failed) in
  History.loading first = false
  /\ History.rows last = data
  /\ History.err last = VStr message
  /\ History.body last = [Message ("Error: " ++ message) true]
  /\ History.err
       (snd (History.fetchHistory (Normal answered)
               (snd (History.fetchHistory (Normal failed) s)))) = VNull
  /\ (forall settled t,
         History.fetchHistory settled t
         = History.fetchHistory_resume settled (History.fetchHistory_begin t)).
Proof.
  intros Hbad Hok Hj. cbv zeta.
  assert (E1 : snd (History.fetchHistory_resume (Normal failed)
                      (History.fetchHistory_begin (History.fetchHistory_begin s)))
               = History.State (History.season s) (History.week s) (History.limit s)
                   (History.rows s) false
                   (VStr ("HTTP " ++ Predictions.status_text (Predictions.status failed)))
                   (History.sortKey s) (History.sortDir s)).
  { unfold History.fetchHistory_resume, try_finally, try_catch, bind, modify, throw, ret,
      await. simpl. now rewrite Hbad. }
  rewrite E1.
  assert (E2 : forall t, snd (History.fetchHistory_resume (Normal answered) t)
               = History.State (History.season t) (History.week t) (History.limit t)
                   data false (History.err t) (History.sortKey t) (History.sortDir t)).
  { intros t.
    unfold History.fetchHistory_resume, try_finally, try_catch, bind, modify, throw, ret,
      await. simpl. rewrite Hok. simpl. now rewrite Hj. }
  rewrite E2. simpl.
  refine (conj eq_refl (conj eq_refl (conj eq_refl (conj _ (conj _ _))))).
  - unfold History.body. simpl.
    destruct (Predictions.status_text (Predictions.status failed)); reflexivity.
  - now rewrite (fetchHistory_ok _ answered data Hok Hj).
  - reflexivity.
Qed.

End Overlap.

Lemma overlapping_history_requests_witness :
  let failed := {| Predictions.status := 500; Predictions.json := Normal [] |} in
  let answered := {| Predictions.status := 200;
                     Predictions.json := Normal [margin_prob 3 d0_55] |} in
  Predictions.ok failed = false
  /\ Predictions.ok answered = true
  /\ History.body (host := plain_host)
       (snd (History.fetchHistory_resume (Normal answered)
          (snd (History.fetchHistory_resume (Normal failed)
             (History.fetchHistory_begin (History.fetchHistory_begin History.initial))))))
     = [Message "Error: HTTP 500" true].
Proof.
  cbv zeta. split; [reflexivity|]. split; [reflexivity|].
  exact (proj1 (proj2 (proj2 (proj2
           (overlapping_history_requests (host := plain_host) History.initial
              {| Predictions.status := 500; Predictions.json := Normal [] |}
              {| Predictions.status := 200;
                 Predictions.json := Normal [margin_prob 3 d0_55] |}
              [margin_prob 3 d0_55] eq_refl eq_refl eq_refl))))).
Defined.


(** ** Saving a snapshot *)

(** X12: when the snapshot POST is answered with a status outside
    200..299, [onSnapshot] shows the alert ["Snapshot failed (HTTP N)"],
    makes no history request and leaves the page state as it was; when
    the POST is rejected, it alerts the rejection's message, or
    ["Snapshot failed"]; and it never throws. *)
Theorem onSnapshot_failure (s : History.state) (log : list value)
    (refresh : completion Predictions.Response) :
  (forall res,
      Predictions.ok res = false ->
      History.onSnapshot (Normal res) refresh (s, log)
      = (Normal tt,
         (s, log ++ [VStr ("Snapshot failed (HTTP "
                           ++ Predictions.status_text (Predictions.status res)
                           ++ ")")])%list))
  /\ (forall e,
         History.onSnapshot (Throw e) refresh (s, log)
         = (Normal tt,
            (s, log ++ [nullish (opt_message e) (VStr "Snapshot failed")])%list))
  /\ (forall post, fst (History.onSnapshot post refresh (s, log)) = Normal tt).
Proof.
  refine (conj _ (conj _ _)).
  - intros res Hbad.
    unfold History.onSnapshot, try_catch, bind, throw, ret, await, History.alert, modify.
    simpl. now rewrite Hbad.
  - intros e. reflexivity.
  - intros [res|e]; [|reflexivity].
    unfold History.onSnapshot, try_catch, bind, throw, ret, await, History.alert, modify,
      History.on_page.
    simpl. destruct (Predictions.ok res); simpl; [|reflexivity].
    pose proof (proj1 (fetchHistory_returns refresh s)) as Hn.
    destruct (History.fetchHistory refresh s) as [c s']. simpl in Hn. now rewrite Hn.
Qed.

Lemma onSnapshot_failure_witness :
  let res := {| Predictions.status := 503; Predictions.json := Normal [] |} in
  Predictions.ok res = false
  /\ History.onSnapshot (Normal res) (Throw (ThrowPrim VNull)) (History.initial, [])
     = (Normal tt, (History.initial, [VStr "Snapshot failed (HTTP 503)"])).
Proof.
  cbv zeta. split; [reflexivity|].
  exact (proj1 (onSnapshot_failure History.initial [] (Throw (ThrowPrim VNull)))
           {| Predictions.status := 503; Predictions.json := Normal [] |} eq_refl).
Defined.

(** X13: when the snapshot POST is answered with a status in 200..299,
    [onSnapshot] of the history page does what [fetchHistory] does and
    shows no alert, also when the refresh fails: that failure is reported
    in the page's error state only. *)
Theorem onSnapshot_refreshes (s : History.state) (log : list value)
    (res : Predictions.Response) (refresh : completion Predictions.Response) :
  Predictions.ok res = true ->
  History.onSnapshot (Normal res) refresh (s, log)
  = (Normal tt, (snd (History.fetchHistory refresh s), log)).
Proof.
  intros Hok.
  unfold History.onSnapshot, try_catch, bind, throw, ret, await, History.on_page.
  simpl. rewrite Hok. simpl.
  pose proof (proj1 (fetchHistory_returns refresh s)) as Hn.
  destruct (History.fetchHistory refresh s) as [c s']. simpl in Hn |- *. now rewrite Hn.
Qed.

Lemma onSnapshot_refreshes_witness :
  let res := {| Predictions.status := 200; Predictions.json := Normal [] |} in
  let refresh := Normal {| Predictions.status := 500; Predictions.json := Normal [] |} in
  Predictions.ok res = true
  /\ History.onSnapshot (Normal res) refresh (History.initial, [])
     = (Normal tt,
        (History.State 2025 8 200 [] false (VStr "HTTP 500") "created_at" desc, [])).
Proof.
  cbv zeta. split; [reflexivity|].
  exact (onSnapshot_refreshes History.initial []
           {| Predictions.status := 200; Predictions.json := Normal [] |}
           (Normal {| Predictions.status := 500; Predictions.json := Normal [] |})
           eq_refl).
Defined.

(** X14: the [onSnapshot] of the history component in [app/page.tsx]
    shows ["Snapshot saved & history refreshed."] whenever the POST is
    answered with a status in 200..299, also when the refresh that follows
    has failed and the page holds its error. *)
Theorem onSnapshot_reports_success_regardless (s : History.state) (log : list value)
    (res : Predictions.Response) (refresh : completion Predictions.Response) :
  Predictions.ok res = true ->
  PageHistory.onSnapshot (Normal res) refresh (s, log)
  = (Normal tt,
     (snd (History.fetchHistory refresh s),
      (log ++ [VStr "Snapshot saved & history refreshed."])%list)).
Proof.
  intros Hok.
  unfold PageHistory.onSnapshot, try_catch, bind, throw, ret, await, History.on_page,
    History.alert, modify.
  simpl. rewrite Hok. simpl.
  pose proof (proj1 (fetchHistory_returns refresh s)) as Hn.
  destruct (History.fetchHistory refresh s) as [c s']. simpl in Hn |- *. now rewrite Hn.
Qed.

Lemma onSnapshot_reports_success_regardless_witness :
  let res := {| Predictions.status := 200; Predictions.json := Normal [] |} in
  let refresh := Normal {| Predictions.status := 500; Predictions.json := Normal [] |} in
  Predictions.ok res = true
  /\ PageHistory.onSnapshot (Normal res) refresh (History.initial, [])
     = (Normal tt,
        (History.State 2025 8 200 [] false (VStr "HTTP 500") "created_at" desc,
         [VStr "Snapshot saved & history refreshed."])).
Proof.
  cbv zeta. split; [reflexivity|].
  exact (onSnapshot_reports_success_regardless History.initial []
           {| Predictions.status := 200; Predictions.json := Normal [] |}
           (Normal {| Predictions.status := 500; Predictions.json := Normal [] |})
           eq_refl).
Defined.

(** ** The table body *)

Lemma data_of_app (l k : list element) : data_of (l ++ k) = (data_of l ++ data_of k)%list.
Proof. unfold data_of. apply flat_map_app. Qed.

Lemma data_of_rows (l : list row) : data_of (map DataRow l) = l.
Proof. induction l as [|r l IH]; simpl; [reflexivity|]. now rewrite IH. Qed.

Lemma data_of_child {host : Host} (v : value) : data_of (child v) = [].
Proof. destruct v as [| | |n|[|a s]]; reflexivity. Qed.

Lemma length_zero_nil {A : Type} (l : list A) : (length l =? 0)%nat = true -> l = [].
Proof. now destruct l. Qed.

Section Body.
Context {host : Host}.

(** X15: the table body of the predictions page and of the history page
    is never empty.  While loading it is the loading message alone; with
    an error that counts as true it is the error message alone; the data
    rows are on display exactly when the page is neither loading nor
    holding such an error, and then they are the sorted rows, all of
    them. *)
Theorem body_shows_one_thing :
  (forall s : Predictions.state,
      Predictions.body s <> []
      /\ (Predictions.loading s = true ->
          Predictions.body s = [Message "Loading…" false])
      /\ (Predictions.loading s = false -> truthy (Predictions.err s) = true ->
          Predictions.body s
          = [Message ("Error: " ++ ToString (Predictions.err s)) true])
      /\ data_of (Predictions.body s)
         = (if Predictions.loading s || truthy (Predictions.err s) then []
            else Predictions.view s))
  /\ (forall s : History.state,
         History.body s <> []
         /\ (History.loading s = true ->
             History.body s = [Message "Loading…" false])
         /\ (History.loading s = false -> truthy (History.err s) = true ->
             History.body s
             = [Message ("Error: " ++ ToString (History.err s)) true])
         /\ data_of (History.body s)
            = (if History.loading s || truthy (History.err s) then []
               else History.view s)).
Proof.
  split; intros s.
  - unfold Predictions.body.
    destruct (Predictions.loading s), (truthy (Predictions.err s)) eqn:Ht; simpl;
      try (repeat split; first [discriminate | reflexivity | intros; discriminate]).
    repeat split; try discriminate.
    + destruct (Predictions.view s) as [|r l] eqn:Hv; simpl.
      * intros H. apply app_eq_nil in H as [_ H]. discriminate.
      * intros H. apply app_eq_nil in H as [_ H]. discriminate.
    + rewrite !data_of_app, data_of_child, data_of_rows.
      now destruct (length (Predictions.view s) =? 0)%nat.
  - unfold History.body.
    destruct (History.loading s), (truthy (History.err s)) eqn:Ht; simpl;
      try (repeat split; first [discriminate | reflexivity | intros; discriminate]).
    repeat split; try discriminate.
    + destruct (History.view s) as [|r l] eqn:Hv; simpl.
      * intros H. apply app_eq_nil in H as [_ H]. discriminate.
      * intros H. apply app_eq_nil in H as [_ H]. discriminate.
    + rewrite !data_of_app, data_of_child, data_of_rows.
      now destruct (length (History.view s) =? 0)%nat.
Qed.

(** X16: a request rejected with an error whose message is the empty
    string is stored as the error [""], which does not count as true: the
    table then shows what it shows without an error, the sorted rows or
    ["No games found."]. *)
Theorem empty_message_goes_unseen (s : Predictions.state) :
  let s' := snd (Predictions.fetchData (Throw (Error "")) s) in
  Predictions.err s' = VStr ""
  /\ Predictions.body s'
     = (if (length (Predictions.view s) =? 0)%nat
        then [Message "No games found." false]
        else map DataRow (Predictions.view s)).
Proof.
  cbv zeta. split; [reflexivity|].
  unfold Predictions.body. simpl.
  change (Predictions.view _) with (Predictions.view s).
  destruct (length (Predictions.view s) =? 0)%nat eqn:Hl; [|reflexivity].
  now rewrite (length_zero_nil _ Hl).
Qed.

(** X17: in the other revision of the predictions page the sorted rows are
    on display in every state, also while loading and after a failure, the
    error being shown in a banner above the table. *)
Theorem other_revision_keeps_rows_on_display (s : Predictions.state) :
  data_of (Part000.body s) = Predictions.view s
  /\ Part000.body s <> []
  /\ (truthy (Predictions.err s) = true ->
      Part000.banner s = [Text (ToString (Predictions.err s))]).
Proof.
  unfold Part000.body, Part000.banner.
  change (Part000.sorted (Predictions.rows s) (Predictions.sortKey s)
            (Predictions.sortDir s)) with (Predictions.view s).
  repeat split.
  - rewrite !data_of_app, data_of_rows.
    destruct (Predictions.loading s), (length (Predictions.view s) =? 0)%nat;
      simpl; now rewrite ?app_nil_r.
  - destruct (Predictions.view s) as [|r l]; [|discriminate].
    destruct (Predictions.loading s); discriminate.
  - now intros ->.
Qed.

End Body.

(** ** The header row *)


(** X18: on the predictions page, when the sort key is one of the five
    keys the headers toggle, exactly one header carries an arrow: the one
    of the sort key, pointing up for ascending and down for descending.
    A click on a header with a key leaves the arrow on that header,
    pointing down if the key was not the sort key and turned round if it
    was; a click on "Matchup" changes nothing. *)
Theorem one_header_carries_the_arrow (s : Predictions.state) :
  In (Predictions.sortKey s) Predictions.sortable ->
  arrows (Predictions.headers s)
  = [(Some (Predictions.sortKey s),
      match Predictions.sortDir s with asc => "▲" | desc => "▼" end)]
  /\ Predictions.step s (Predictions.Click 0) = s
  /\ (forall n h key,
         Predictions.headers s !! n = Some h -> click h = Some key ->
         In key Predictions.sortable
         /\ arrows (Predictions.headers (Predictions.step s (Predictions.Click n)))
            = [(Some key,
                if String.eqb (Predictions.sortKey s) key
                then match Predictions.sortDir s with asc => "▼" | desc => "▲" end
                else "▼")]).
Proof.
  destruct s as [season week rows loading err key d]. simpl.
  intros Hin.
  repeat (destruct Hin as [<-|Hin]; [|]); try contradiction;
    (split; [now destruct d|]); (split; [reflexivity|]);
    intros n h k Hn Hk;
    destruct n as [|[|[|[|[|[|n]]]]]]; simpl in Hn; try discriminate;
    injection Hn as <-; simpl in Hk; try discriminate;
    injection Hk as <-; (split; [simpl; tauto|]); now destruct d.
Qed.

Lemma one_header_carries_the_arrow_witness :
  In (Predictions.sortKey Predictions.initial) Predictions.sortable
  /\ arrows (Predictions.headers Predictions.initial) = [(Some "pick_prob", "▼")].
Proof.
  split; [simpl; tauto|].
  apply (one_header_carries_the_arrow Predictions.initial). simpl; tauto.
Defined.

(** ** The states the page can reach *)




(** ** Formatting *)

Lemma toFixed_throws {host : Host} (x : num) (f : Z) :
  (toFixed x f = inr RangeError <-> (f < 0 \/ 100 < f)%Z)
  /\ toFixed x f <> inr TypeError.
Proof.
  unfold toFixed.
  destruct ((f <? 0) || (100 <? f))%Z eqn:Hf.
  - apply orb_true_iff in Hf. rewrite !Z.ltb_lt in Hf. split; [tauto|discriminate].
  - apply orb_false_iff in Hf. rewrite !Z.ltb_ge in Hf.
    split; [|destruct x as [| | |q]; try discriminate;
             destruct (_ <=? _)%Z; discriminate].
    split; [|lia].
    destruct x as [| | |q]; try discriminate. destruct (_ <=? _)%Z; discriminate.
Qed.

(** X20: [fmtNum] throws in two cases and no other: a [RangeError] when
    the value is a number and the number of decimals is outside 0..100, a
    [TypeError] when the value is a boolean or a string, which have no
    [toFixed].  The table asks for 2, 3 and 1 decimals, so that the three
    cells [fmtNum] fills render for every [GameView] row. *)
Theorem fmtNum_throws_exactly_when (host : Host) :
  (forall x d,
      Predictions.fmtNum x d = inr RangeError
      <-> (exists n, x = VNum n) /\ (default 2 d < 0 \/ 100 < default 2 d)%Z)
  /\ (forall x d,
         Predictions.fmtNum x d = inr TypeError
         <-> (exists b, x = VBool b) \/ (exists s, x = VStr s))
  /\ (forall g,
         Predictions.GameView g = true ->
         exists a b c, Predictions.cells g = [inl a; inl b; inl c]).
Proof.
  refine (conj _ (conj _ _)).
  - intros x d. unfold Predictions.fmtNum. cbv zeta.
    destruct x as [| |b|n|s]; try (split; [discriminate|intros [[n' Hn] _]; discriminate]).
    rewrite (proj1 (toFixed_throws n (default 2%Z d))). split; [eauto|tauto].
  - intros x d. unfold Predictions.fmtNum. cbv zeta.
    destruct x as [| |b|n|s].
    + split; [discriminate|intros [[? H]|[? H]]; discriminate].
    + split; [discriminate|intros [[? H]|[? H]]; discriminate].
    + split; eauto.
    + split; [intros H; now apply toFixed_throws in H
             |intros [[? H]|[? H]]; discriminate].
    + split; eauto.
  - intros g Hg. unfold Predictions.GameView in Hg.
    repeat (apply andb_prop in Hg as [Hg ?]).
    unfold Predictions.cells, Predictions.fmtNum. cbv zeta.
    assert (Hin : forall n f, (0 <= f <= 100)%Z -> exists t, toFixed n f = inl t).
    { intros n f Hf. destruct (toFixed n f) as [t|[|]] eqn:E; [eauto| |].
      - apply toFixed_throws in E. lia.
      - now apply toFixed_throws in E. }
    assert (Hopt : forall v f, (is_missing v || is_number v) = true -> (0 <= f <= 100)%Z ->
                   exists t, match v with
                             | VNull | VUndefined => inl "—"
                             | VNum n => toFixed n f
                             | VBool _ | VStr _ => inr TypeError
                             end = inl t).
    { intros v f Hv Hf. destruct v as [| |b|n|s]; try discriminate; eauto. }
    destruct (Hopt (get g "pred_margin") 2%Z) as [a Ea]; [|lia|].
    { apply orb_true_iff. now right. }
    destruct (Hopt (get g "net_epa_per_play") 3%Z) as [b Eb]; [assumption|lia|].
    destruct (Hopt (get g "K_pair") 1%Z) as [c Ec]; [assumption|lia|].
    exists a, b, c. simpl default. now rewrite Ea, Eb, Ec.
Qed.

(** X21: a negative number is formatted as its magnitude with a minus sign
    in front, also when the magnitude rounds to zero: [-0.001] with two
    decimals is ["-0.00"]. *)
Theorem fmtNum_of_negative (host : Host) (q : Q) (d : option Z) :
  (0 < q)%Q ->
  Predictions.fmtNum (VNum (Fin (- q))) d
  = match Predictions.fmtNum (VNum (Fin q)) d with
    | inl m => inl ("-" ++ m)
    | inr e => inr e
    end.
Proof.
  intros Hq. unfold Predictions.fmtNum, toFixed. cbv zeta.
  destruct ((default 2%Z d <? 0) || (100 <? default 2%Z d))%Z; [reflexivity|].
  assert (Hp : (0 < Qnum q)%Z).
  { unfold Qlt in Hq. simpl in Hq. lia. }
  destruct q as [p den]. simpl in Hp |- *.
  replace (Z.abs (- p)) with (Z.abs p) by lia.
  replace (- p <? 0)%Z with true by (symmetry; apply Z.ltb_lt; lia).
  replace (p <? 0)%Z with false by (symmetry; apply Z.ltb_ge; lia).
  destruct (10 ^ 21 * Z.pos den <=? Z.abs p)%Z; reflexivity.
Qed.

Lemma fmtNum_of_negative_witness :
  (0 < 1 # 1000)%Q
  /\ Predictions.fmtNum (host := plain_host) (VNum (Fin (- (1 # 1000)))) None
     = inl "-0.00".
Proof.
  split; [reflexivity|].
  exact (fmtNum_of_negative plain_host (1 # 1000) None eq_refl).
Defined.

Lemma length_app_string (s t : string) :
  String.length (s ++ t) = (String.length s + String.length t)%nat.
Proof.
  induction s as [|a s IH]; [reflexivity|].
  change (S (String.length (s ++ t)) = S (String.length s + String.length t)).
  now rewrite IH.
Qed.

Lemma length_substring (s : string) (n m : nat) :
  (n + m <= String.length s)%nat -> String.length (substring n m s) = m.
Proof.
  revert n m. induction s as [|a s IH]; intros n m H; simpl in H.
  - assert (n = 0%nat) by lia. assert (m = 0%nat) by lia. now subst.
  - destruct n as [|n].
    + destruct m as [|m]; [reflexivity|]. simpl. rewrite IH; [reflexivity|lia].
    + simpl. apply IH. lia.
Qed.

Lemma place_point_shape (m : string) (f : nat) :
  exists a b,
    place_point m f = a ++ "." ++ b
    /\ String.length b = f /\ (1 <= String.length a)%nat.
Proof.
  unfold place_point.
  set (m' := if (String.length m <=? f)%nat
             then zeros (f + 1 - String.length m) ++ m else m).
  assert (Hlen : (f + 1 <= String.length m')%nat).
  { unfold m'. destruct (String.length m <=? f)%nat eqn:E.
    - apply Nat.leb_le in E. rewrite length_app_string, length_zeros. lia.
    - apply Nat.leb_gt in E. lia. }
  cbv zeta.
  exists (substring 0 (String.length m' - f) m'), (substring (String.length m' - f) f m').
  split; [reflexivity|]. rewrite !length_substring by lia. lia.
Qed.

(** X22: a finite number below 10^21 in magnitude, formatted with [d]
    decimals for a [d] from 1 to 100, has a point with exactly [d]
    characters after it and at least one before it (behind the minus sign
    of a negative number). *)
Theorem fmtNum_has_d_decimals (host : Host) (q : Q) (d : Z) :
  (1 <= d <= 100)%Z ->
  (Z.abs (Qnum q) < 10 ^ 21 * Zpos (Qden q))%Z ->
  exists a b,
    Predictions.fmtNum (VNum (Fin q)) (Some d)
    = inl ((if (Qnum q <? 0)%Z then "-" else "") ++ a ++ "." ++ b)
    /\ String.length b = Z.to_nat d
    /\ (1 <= String.length a)%nat.
Proof.
  intros Hd Hsmall. unfold Predictions.fmtNum, toFixed. cbv zeta. simpl default.
  replace ((d <? 0) || (100 <? d))%Z with false
    by (symmetry; apply orb_false_iff; split; apply Z.ltb_ge; lia).
  replace (10 ^ 21 * Z.pos (Qden q) <=? Z.abs (Qnum q))%Z with false
    by (symmetry; apply Z.leb_gt; lia).
  replace (d =? 0)%Z with false by (symmetry; apply Z.eqb_neq; lia).
  destruct (place_point_shape
              (digits (nearest (Z.abs (Qnum q)) (Z.pos (Qden q)) d)) (Z.to_nat d))
    as (a & b & E & Hb & Ha).
  exists a, b. now rewrite E.
Qed.

Lemma fmtNum_has_d_decimals_witness :
  (1 <= 3 <= 100)%Z
  /\ (Z.abs (Qnum (- (5 # 4))) < 10 ^ 21 * Zpos (Qden (- (5 # 4))))%Z
  /\ exists a b,
       Predictions.fmtNum (host := plain_host) (VNum (Fin (- (5 # 4)))) (Some 3%Z)
       = inl ((if (Qnum (- (5 # 4)) <? 0)%Z then "-" else "") ++ a ++ "." ++ b)
       /\ String.length b = Z.to_nat 3
       /\ (1 <= String.length a)%nat.
Proof.
  split; [lia|]. split; [reflexivity|].
  apply (fmtNum_has_d_decimals plain_host (- (5 # 4)) 3); [lia|reflexivity].
Defined.

(** ** The layout *)

(** X23: the "API Health" link of the layout and the API base of the page
    read the same variable.  When it is set, the link is the base itself,
    without [/health]; only when it is unset is it the default base
    followed by [/health]. *)
Theorem health_link_follows_api_base :
  (forall v, is_missing v = false ->
             Layout.health_href v = Predictions.apiBase v)
  /\ (forall v, is_missing v = true ->
                exists base,
                  Predictions.apiBase v = VStr base
                  /\ Layout.health_href v = VStr (base ++ "/health")).
Proof.
  split.
  - intros v Hv. now destruct v.
  - intros v Hv. exists "http://127.0.0.1:8000". now destruct v.
Qed.
